(** * migrate_assets.py: the asset-catalog migration script

    A shallow embedding of [migrate_assets.py] and of the parts of the Python
    standard library it calls ([str.lower], [str.endswith],
    [os.path.splitext], [json.dump], [os.path.exists], [os.makedirs],
    [os.listdir], [shutil.rmtree], [shutil.copy2], [open(.., "w")]).

    Conventions of the model:
    - a Python [str] is a [string]; a character is a code point below 256,
      so file names range over Latin-1 text;
    - a path is the list of its components below the root [/];
      [os.path.join d name] is [d ++ [name]], directory entries being single
      components;
    - the file system is a tree; a directory keeps its entries as an
      association list, in the order [os.listdir] yields them;
    - the file system is case-sensitive, has no symbolic links and no
      permission failures; a failing library call leaves it unchanged;
    - the script is a computation in a state-and-exception monad over the
      file system and the standard output. *)

From Stdlib Require Import List ListDec String Ascii ZArith Bool Lia.
From Stdlib Require Import DecimalString.
Import ListNotations.
Open Scope string_scope.

Set Warnings "-register-all".

(* ================================================================== *)
(** ** Python strings *)

Module Py.

(** [str.lower] on one character: the upper-case letters below code point
    256 are [A]-[Z], [U+00C0]-[U+00D6] and [U+00D8]-[U+00DE]; each maps to
    the code point 32 above. *)
Definition lower_char (c : ascii) : ascii :=
  let n := nat_of_ascii c in
  if (((65 <=? n) && (n <=? 90)) || ((192 <=? n) && (n <=? 214))
      || ((216 <=? n) && (n <=? 222)))%nat
  then ascii_of_nat (n + 32) else c.

(** [s.lower()] *)
Fixpoint lower (s : string) : string :=
  match s with
  | EmptyString => EmptyString
  | String c s' => String (lower_char c) (lower s')
  end.

(** [s.endswith(suffix)]: some tail of [s] is [suffix]. *)
Fixpoint endswith (s suffix : string) : bool :=
  if String.eqb s suffix then true
  else match s with
       | EmptyString => false
       | String _ s' => endswith s' suffix
       end.

(** [s.endswith(suffixes)] with a tuple argument. *)
Definition endswith_any (s : string) (suffixes : list string) : bool :=
  existsb (endswith s) suffixes.

(** [s.rfind(c)] for a one-character [c]: the highest index, or [-1]. *)
Fixpoint rfind (s : string) (c : ascii) : Z :=
  match s with
  | EmptyString => (-1)%Z
  | String a s' =>
      let r := rfind s' c in
      if (0 <=? r)%Z then (r + 1)%Z
      else if Ascii.eqb a c then 0%Z else (-1)%Z
  end.

(** [s[:i]] and [s[i:]] for [0 <= i]. *)
Definition slice_to (s : string) (i : Z) : string :=
  substring 0 (Z.to_nat i) s.
Definition slice_from (s : string) (i : Z) : string :=
  substring (Z.to_nat i) (String.length s - Z.to_nat i) s.

(** The [while filenameIndex < dotIndex] loop of [genericpath._splitext]:
    [true] when a character other than [extsep] stands before [dotIndex]
    (the loop returns the split), [false] when the loop runs out. *)
Fixpoint skip_leading_dots (fuel : nat) (p : string) (extsep : ascii)
         (filenameIndex dotIndex : Z) : bool :=
  match fuel with
  | O => false
  | S fuel' =>
      if (filenameIndex <? dotIndex)%Z then
        match String.get (Z.to_nat filenameIndex) p with
        | Some c =>
            if Ascii.eqb c extsep
            then skip_leading_dots fuel' p extsep (filenameIndex + 1) dotIndex
            else true
        | None => true
        end
      else false
  end.

(** [genericpath._splitext(p, sep, altsep=None, extsep)] *)
Definition splitext_generic (p : string) (sep extsep : ascii)
  : string * string :=
  let sepIndex := rfind p sep in
  let dotIndex := rfind p extsep in
  if (sepIndex <? dotIndex)%Z
     && skip_leading_dots (String.length p) p extsep (sepIndex + 1) dotIndex
  then (slice_to p dotIndex, slice_from p dotIndex)
  else (p, EmptyString).

(** [os.path.splitext] of [posixpath]. *)
Definition splitext (p : string) : string * string :=
  splitext_generic p "/"%char "."%char.

End Py.

(* ================================================================== *)
(** ** The [json] encoder *)

Module Json.

(** The Python values the script serialises; a [dict] keeps its items in
    insertion order. *)
Inductive value :=
| Int (n : Z)
| Str (s : string)
| Arr (items : list value)
| Obj (members : list (string * value)).

Definition dquote : ascii := "034"%char.
Definition newline : ascii := "010"%char.
Definition backslash : ascii := "\"%char.

Definition hex_digit (n : nat) : ascii :=
  match n with
  | 0 => "0" | 1 => "1" | 2 => "2" | 3 => "3" | 4 => "4" | 5 => "5"
  | 6 => "6" | 7 => "7" | 8 => "8" | 9 => "9" | 10 => "a" | 11 => "b"
  | 12 => "c" | 13 => "d" | 14 => "e" | _ => "f"
  end%char.

(** The replacement of one character by [py_encode_basestring_ascii]:
    [ESCAPE_DCT] for the short escapes, [\u00xx] for anything else outside
    [' '..'~'], the character itself otherwise. *)
Definition escape_char (c : ascii) : string :=
  let n := nat_of_ascii c in
  let esc (x : ascii) := String backslash (String x EmptyString) in
  if Ascii.eqb c backslash then esc backslash
  else if Ascii.eqb c dquote then esc dquote
  else if (n =? 8)%nat then esc "b"%char
  else if (n =? 12)%nat then esc "f"%char
  else if (n =? 10)%nat then esc "n"%char
  else if (n =? 13)%nat then esc "r"%char
  else if (n =? 9)%nat then esc "t"%char
  else if ((32 <=? n) && (n <=? 126))%nat then String c EmptyString
  else String backslash
         (String "u" (String "0" (String "0"
            (String (hex_digit (n / 16))
               (String (hex_digit (n mod 16)) EmptyString))))).

Fixpoint escape (s : string) : string :=
  match s with
  | EmptyString => EmptyString
  | String c s' => escape_char c ++ escape s'
  end.

(** [encode_basestring_ascii] *)
Definition encode_basestring_ascii (s : string) : string :=
  String dquote (escape s ++ String dquote EmptyString).

(** [int.__repr__] *)
Definition intstr (n : Z) : string := NilZero.string_of_int (Z.to_int n).

Fixpoint spaces (n : nat) : string :=
  match n with
  | O => EmptyString
  | S n' => String " " (spaces n')
  end.

(** ['\n' + _indent * _current_indent_level] *)
Definition newline_indent (indent level : nat) : string :=
  String newline (spaces (indent * level)).

Fixpoint join (sep : string) (chunks : list string) : string :=
  match chunks with
  | [] => EmptyString
  | [c] => c
  | c :: rest => c ++ sep ++ join sep rest
  end.

(** [_iterencode] of [json.encoder] with an integer [indent]: the item
    separator is [","], the key separator [": "]. *)
Fixpoint iterencode (indent level : nat) (o : value) : string :=
  match o with
  | Int n => intstr n
  | Str s => encode_basestring_ascii s
  | Arr [] => "[]"
  | Arr items =>
      "[" ++ newline_indent indent (S level)
      ++ join ("," ++ newline_indent indent (S level))
              (map (iterencode indent (S level)) items)
      ++ newline_indent indent level ++ "]"
  | Obj [] => "{}"
  | Obj members =>
      "{" ++ newline_indent indent (S level)
      ++ join ("," ++ newline_indent indent (S level))
              (map (fun kv : string * value => let (key, v) := kv in
                              encode_basestring_ascii key ++ ": "
                              ++ iterencode indent (S level) v)
                   members)
      ++ newline_indent indent level ++ "}"
  end.

(** [json.dumps(obj, indent=indent)] *)
Definition dumps (obj : value) (indent : nat) : string :=
  iterencode indent 0 obj.

(** A text given line by line. *)
Definition lines (ls : list string) : string :=
  join (String newline EmptyString) ls.

(** [s] between double quotes. *)
Definition quoted (s : string) : string :=
  String dquote (s ++ String dquote EmptyString).

End Json.
(* ================================================================== *)
(** ** The file system *)

(** The result of a call that may raise. *)
Inductive outcome (E A : Type) :=
| Ok (a : A)
| Raise (e : E).
Arguments Ok {E A} a.
Arguments Raise {E A} e.

Definition path := list string.

(** What [shutil.copystat] carries over: permission bits and the times of
    last access and modification. *)
Record stat_result := {
  st_mode : Z;
  st_atime : Z;
  st_mtime : Z
}.

Inductive node :=
| File (data : string) (st : stat_result)
| Dir (entries : list (string * node)).

Definition entries := list (string * node).

Inductive errno := ENOENT | ENOTDIR | EISDIR | EEXIST | EBUSY.

(** [OSError] with its [errno] and [filename]; [shutil.SameFileError]. *)
Inductive exception :=
| OSError (e : errno) (filename : path)
| SameFileError (src dst : path).

Abbreviation FileNotFoundError := (OSError ENOENT).
Abbreviation NotADirectoryError := (OSError ENOTDIR).
Abbreviation IsADirectoryError := (OSError EISDIR).
Abbreviation FileExistsError := (OSError EEXIST).

Module FS.

(** The first entry called [k]. *)
Fixpoint assoc (k : string) (es : entries) : option node :=
  match es with
  | [] => None
  | (k', v) :: es' => if String.eqb k k' then Some v else assoc k es'
  end.

(** Replace the entry called [k] where it stands, or append it. *)
Fixpoint set_entry (k : string) (v : node) (es : entries) : entries :=
  match es with
  | [] => [(k, v)]
  | (k', v') :: es' =>
      if String.eqb k k' then (k, v) :: es' else (k', v') :: set_entry k v es'
  end.

Definition del_entry (k : string) (es : entries) : entries :=
  filter (fun kv => negb (String.eqb k (fst kv))) es.

(** Path resolution: [ENOTDIR] when a component is looked up in a regular
    file, [ENOENT] when it is missing from a directory. *)
Fixpoint lookup (p : path) (n : node) : outcome errno node :=
  match p with
  | [] => Ok n
  | k :: p' =>
      match n with
      | File _ _ => Raise ENOTDIR
      | Dir es =>
          match assoc k es with
          | None => Raise ENOENT
          | Some c => lookup p' c
          end
      end
  end.

(** Apply [f] to the entries of the directory at [p]. *)
Fixpoint at_dir (p : path) (f : entries -> outcome errno entries)
         (n : node) : outcome errno node :=
  match n with
  | File _ _ => Raise ENOTDIR
  | Dir es =>
      match p with
      | [] => match f es with
              | Ok es' => Ok (Dir es')
              | Raise e => Raise e
              end
      | k :: p' =>
          match assoc k es with
          | None => Raise ENOENT
          | Some c =>
              match at_dir p' f c with
              | Ok c' => Ok (Dir (set_entry k c' es))
              | Raise e => Raise e
              end
          end
      end
  end.

(** [os.path.dirname] and [os.path.basename] on component lists. *)
Definition dirname (p : path) : path := removelast p.
Definition basename (p : path) : string := last p EmptyString.

(** Attach the file name to a failed system call. *)
Definition oserror (p : path) (r : outcome errno node)
  : outcome exception node :=
  match r with
  | Ok n => Ok n
  | Raise e => Raise (OSError e p)
  end.

(** [os.path.exists], [os.path.isdir] *)
Definition exists_ (p : path) (n : node) : bool :=
  match lookup p n with Ok _ => true | Raise _ => false end.
Definition isdir (p : path) (n : node) : bool :=
  match lookup p n with Ok (Dir _) => true | _ => false end.

(** [os.listdir] *)
Definition listdir (p : path) (n : node) : outcome exception (list string) :=
  match lookup p n with
  | Ok (Dir es) => Ok (map fst es)
  | Ok (File _ _) => Raise (NotADirectoryError p)
  | Raise e => Raise (OSError e p)
  end.

(** [os.mkdir]: the new directory is listed last. *)
Definition mkdir_entry (name : string) (es : entries)
  : outcome errno entries :=
  match assoc name es with
  | Some _ => Raise EEXIST
  | None => Ok (es ++ [(name, Dir [])])%list
  end.

Definition mkdir (p : path) (n : node) : outcome exception node :=
  match p with
  | [] => Raise (FileExistsError p)
  | _ => oserror p (at_dir (dirname p) (mkdir_entry (basename p)) n)
  end.

(** [os.makedirs(name, exist_ok=exist_ok)], on the reversed path
    [tail :: rev head]: make [head] first when it does not exist, then
    [mkdir name]. *)
Fixpoint makedirs_rev (rname : list string) (exist_ok : bool) (n : node)
  : outcome exception node :=
  match rname with
  | [] => if exist_ok then Ok n else Raise (FileExistsError [])
  | _ :: rhead =>
      let name := rev rname in
      let head := rev rhead in
      let made :=
        if negb (exists_ head n) then
          match makedirs_rev rhead exist_ok n with
          | Raise (FileExistsError _) => Ok n
          | r => r
          end
        else Ok n in
      match made with
      | Raise e => Raise e
      | Ok n1 =>
          match mkdir name n1 with
          | Ok n2 => Ok n2
          | Raise e => if exist_ok && isdir name n1 then Ok n1 else Raise e
          end
      end
  end.

Definition makedirs (name : path) (n : node) : outcome exception node :=
  makedirs_rev (rev name) false n.

(** [shutil.rmtree]: the path must resolve to a directory, which is removed
    with everything below it. The root itself cannot be removed. *)
Definition rmtree (p : path) (n : node) : outcome exception node :=
  match lookup p n with
  | Raise e => Raise (OSError e p)
  | Ok (File _ _) => Raise (NotADirectoryError p)
  | Ok (Dir _) =>
      match p with
      | [] => Raise (OSError EBUSY p)
      | _ => oserror p (at_dir (dirname p)
                          (fun es => Ok (del_entry (basename p) es)) n)
      end
  end.

(** Opening [name] for writing in a directory and storing [data]: a new
    file gets [st None], an existing one is truncated and gets
    [st (Some old)]; a directory cannot be opened. *)
Definition store_entry (name : string) (data : string)
           (st : option stat_result -> stat_result) (es : entries)
  : outcome errno entries :=
  match assoc name es with
  | Some (Dir _) => Raise EISDIR
  | Some (File _ old) => Ok (set_entry name (File data (st (Some old))) es)
  | None => Ok (set_entry name (File data (st None)) es)
  end.

Definition store (p : path) (data : string)
           (st : option stat_result -> stat_result) (n : node)
  : outcome exception node :=
  match p with
  | [] => Raise (IsADirectoryError p)
  | _ => oserror p (at_dir (dirname p) (store_entry (basename p) data st) n)
  end.

(** The status of a file written through [open(p, "w")] at a moment whose
    fresh-file status is [now]: a new file takes [now], a truncated one
    keeps its mode and access time and takes the modification time. *)
Definition written (now : stat_result) (old : option stat_result)
  : stat_result :=
  match old with
  | None => now
  | Some o => {| st_mode := st_mode o; st_atime := st_atime o;
                 st_mtime := st_mtime now |}
  end.

(** [with open(p, "w") as f: f.write(data)] *)
Definition write_text (now : stat_result) (p : path) (data : string)
  : node -> outcome exception node :=
  store p data (written now).

Fixpoint path_eqb (p q : path) : bool :=
  match p, q with
  | [], [] => true
  | a :: p', b :: q' => String.eqb a b && path_eqb p' q'
  | _, _ => false
  end.

(** [shutil.copy2(src, dst)]: into [dst/basename(src)] when [dst] is a
    directory; [copyfile] refuses the same file, reads [src] (which must be
    a regular file), writes [dst]; [copystat] gives the copy the status of
    [src]. *)
Definition copy2 (src dst : path) (n : node) : outcome exception node :=
  let dst := if isdir dst n then (dst ++ [basename src])%list else dst in
  if path_eqb src dst && exists_ src n then Raise (SameFileError src dst)
  else
    match lookup src n with
    | Raise e => Raise (OSError e src)
    | Ok (Dir _) => Raise (IsADirectoryError src)
    | Ok (File data st) => store dst data (fun _ => st) n
    end.

End FS.

(* ================================================================== *)
(** ** The script *)

(** The state a run acts on. *)
Record world := {
  fs : node;
  stdout : list string
}.

(** Computations: the world where the call ended, and what it returned or
    raised. *)
Definition M (A : Type) := world -> world * outcome exception A.

Definition ret {A} (a : A) : M A := fun w => (w, Ok a).

Definition bind {A B} (m : M A) (k : A -> M B) : M B :=
  fun w => match m w with
           | (w', Ok a) => k a w'
           | (w', Raise e) => (w', Raise e)
           end.

Notation "x <- m ;; k" := (bind m (fun x => k))
  (at level 61, m at next level, right associativity).
Notation "m ;; k" := (bind m (fun _ => k))
  (at level 61, right associativity).

(** A call that reads the file system. *)
Definition query {A} (q : node -> A) : M A := fun w => (w, Ok (q (fs w))).

(** A call that reads the file system and may raise. *)
Definition attempt {A} (q : node -> outcome exception A) : M A :=
  fun w => (w, q (fs w)).

(** A call that changes the file system, or raises and leaves it. *)
Definition update (op : node -> outcome exception node) : M unit :=
  fun w => match op (fs w) with
           | Ok n => ({| fs := n; stdout := stdout w |}, Ok tt)
           | Raise e => (w, Raise e)
           end.

Definition print (line : string) : M unit :=
  fun w => ({| fs := fs w; stdout := (stdout w ++ [line])%list |}, Ok tt).

(** [for x in xs: body] *)
Fixpoint for_each {A} (xs : list A) (body : A -> M unit) : M unit :=
  match xs with
  | [] => ret tt
  | x :: xs' => body x ;; for_each xs' body
  end.

(** [with open(p, "w") as f: json.dump(obj, f, indent=indent)] *)
Definition dump_to (now : stat_result) (p : path) (obj : Json.value)
           (indent : nat) : M unit :=
  update (FS.write_text now p (Json.dumps obj indent)).

Definition source_dir : path :=
  ["Users"; "travis"; "Documents"; "projects"; "claude-usage-pro";
   "Sources"; "ClaudeUsagePro"; "Assets"].
Definition dest_dir : path :=
  ["Users"; "travis"; "Documents"; "projects"; "claude-usage-pro";
   "Sources"; "ClaudeUsagePro"; "Assets.xcassets"].

(** The [info] record both descriptors carry. *)
Definition info : Json.value :=
  Json.Obj [("author", Json.Str "xcode"); ("version", Json.Int 1)].

(** Lines 14-19: the root [Contents.json]. *)
Definition root_contents : Json.value :=
  Json.Obj [("info", info)].

(** Lines 33-53: the [Contents.json] of an image set. *)
Definition imageset_contents (filename : string) : Json.value :=
  Json.Obj
    [("images",
      Json.Arr
        [Json.Obj [("filename", Json.Str filename);
                   ("idiom", Json.Str "universal");
                   ("scale", Json.Str "1x")];
         Json.Obj [("idiom", Json.Str "universal");
                   ("scale", Json.Str "2x")];
         Json.Obj [("idiom", Json.Str "universal");
                   ("scale", Json.Str "3x")]]);
     ("info", info)].

(** Line 21, the filter: [f.lower().endswith(('.png', '.jpg', '.jpeg'))] *)
Definition is_image (f : string) : bool :=
  Py.endswith_any (Py.lower f) [".png"; ".jpg"; ".jpeg"].

(** Line 24 *)
Definition name_without_ext (filename : string) : string :=
  fst (Py.splitext filename).

(** Line 25 *)
Definition imageset_dir (filename : string) : path :=
  (dest_dir ++ [(name_without_ext filename ++ ".imageset")%string])%list.

(** Lines 8-10: the destination is removed when it exists, then made. *)
Definition reset_destination : M unit :=
  e <- query (FS.exists_ dest_dir) ;;
  (if e then update (FS.rmtree dest_dir) else ret tt) ;;
  update (FS.makedirs dest_dir).

(** Lines 13-19 *)
Definition write_root_contents (now : stat_result) : M unit :=
  dump_to now (dest_dir ++ ["Contents.json"])%list root_contents 2.

(** Lines 24-53, the body of the loop. *)
Definition migrate_file (now : stat_result) (filename : string) : M unit :=
  update (FS.makedirs (imageset_dir filename)) ;;
  update (FS.copy2 (source_dir ++ [filename])%list
                   (imageset_dir filename ++ [filename])%list) ;;
  dump_to now (imageset_dir filename ++ ["Contents.json"])%list
          (imageset_contents filename) 2.

(** Lines 21-53 *)
Definition migrate_files (now : stat_result) : M unit :=
  names <- attempt (FS.listdir source_dir) ;;
  let files := filter is_image names in
  for_each files (migrate_file now).

(** The whole script. [now] is the status the system gives to a file
    opened for writing during the run. *)
Definition migrate_assets (now : stat_result) : M unit :=
  reset_destination ;;
  write_root_contents now ;;
  migrate_files now ;;
  print "Migration complete".

(* ================================================================== *)
(** ** Auxiliary notions used by the statements *)

(** [q] is [p] or an ancestor of [p]. *)
Fixpoint is_prefix (q p : path) : bool :=
  match q, p with
  | [], _ => true
  | a :: q', b :: p' => String.eqb a b && is_prefix q' p'
  | _ :: _, [] => false
  end.

(** Neither path is an ancestor of the other. *)
Definition apart (p q : path) : bool :=
  negb (is_prefix p q) && negb (is_prefix q p).

(** The tree [n] with the node at [p], when there is one, replaced by [d]. *)
Fixpoint graft (p : path) (d : node) (n : node) : node :=
  match p with
  | [] => d
  | k :: p' =>
      match n with
      | File _ _ => n
      | Dir es =>
          match FS.assoc k es with
          | None => n
          | Some c => Dir (FS.set_entry k (graft p' d c) es)
          end
      end
  end.

(** Two file systems that agree on every path apart from the destination:
    whatever differs lies at the destination, below it, or is one of its
    ancestors (whose listing names the destination). *)
Definition same_outside_dest (n n' : node) : Prop :=
  forall q, apart dest_dir q = true -> FS.lookup q n' = FS.lookup q n.

(** The name of the directory made for [filename] (line 25). *)
Definition imageset_name (filename : string) : string :=
  name_without_ext filename ++ ".imageset".

(** The image set the loop body builds for a regular file. *)
Definition imageset_of (now : stat_result) (filename data : string)
           (st : stat_result) : node :=
  Dir [(filename, File data st);
       ("Contents.json",
        File (Json.dumps (imageset_contents filename) 2) now)].

(** The root descriptor as the run leaves it. *)
Definition root_entry (now : stat_result) : string * node :=
  ("Contents.json", File (Json.dumps root_contents 2) now).

(** What the body of the loop does to the entries [D] of the destination,
    [src f] being what [source_dir/f] resolves to. *)
Definition convert_file (now : stat_result)
           (src : string -> outcome errno node) (f : string) (D : entries)
  : entries * outcome exception unit :=
  match FS.assoc (imageset_name f) D with
  | Some _ => (D, Raise (FileExistsError (imageset_dir f)))
  | None =>
      match src f with
      | Ok (File data st) =>
          ((D ++ [(imageset_name f, imageset_of now f data st)])%list, Ok tt)
      | Ok (Dir _) =>
          ((D ++ [(imageset_name f, Dir [])])%list,
           Raise (IsADirectoryError (source_dir ++ [f])%list))
      | Raise e =>
          ((D ++ [(imageset_name f, Dir [])])%list,
           Raise (OSError e (source_dir ++ [f])%list))
      end
  end.

Fixpoint convert (now : stat_result) (src : string -> outcome errno node)
         (files : list string) (D : entries)
  : entries * outcome exception unit :=
  match files with
  | [] => (D, Ok tt)
  | f :: files' =>
      match convert_file now src f D with
      | (D1, Ok _) => convert now src files' D1
      | (D1, Raise e) => (D1, Raise e)
      end
  end.

(** What [source_dir/f] resolves to in a world. *)
Definition source_file (w : world) (f : string) : outcome errno node :=
  FS.lookup (source_dir ++ [f])%list (fs w).

(** The names line 21 keeps from the entries of the source directory. *)
Definition files_of (srcs : entries) : list string :=
  filter is_image (map fst srcs).

(** Case-insensitive comparison, character by character: two characters
    are the same letter when they are equal or one is an upper-case letter
    and the other the lower-case letter 32 code points above it. *)
Definition upper_case (n : nat) : bool :=
  (((65 <=? n) && (n <=? 90)) || ((192 <=? n) && (n <=? 214))
   || ((216 <=? n) && (n <=? 222)))%nat.

Definition same_letter (a b : ascii) : bool :=
  let x := nat_of_ascii a in
  let y := nat_of_ascii b in
  ((x =? y) || (upper_case x && (x + 32 =? y))
   || (upper_case y && (y + 32 =? x)))%nat.

Fixpoint equal_ignoring_case (s t : string) : bool :=
  match s, t with
  | EmptyString, EmptyString => true
  | String a s', String b t' => same_letter a b && equal_ignoring_case s' t'
  | _, _ => false
  end.

(** [s] ends with [suffix], case aside. *)
Definition ends_with_ignoring_case (s suffix : string) : Prop :=
  exists pre tail,
    s = pre ++ tail /\ equal_ignoring_case tail suffix = true.

(** A tree without the status of its files: what it holds, not when or
    under which mode it was written. *)
Fixpoint content (n : node) : node :=
  match n with
  | File data _ => File data {| st_mode := 0; st_atime := 0; st_mtime := 0 |}
  | Dir es => Dir (map (fun kv : string * node =>
                          let (k, v) := kv in (k, content v)) es)
  end.

Definition content_at (p : path) (n : node) : outcome errno node :=
  match FS.lookup p n with
  | Ok x => Ok (content x)
  | Raise e => Raise e
  end.

(** A directory tree holding [n] at [p] and nothing else. *)
Fixpoint single (p : path) (n : node) : node :=
  match p with
  | [] => n
  | k :: p' => Dir [(k, single p' n)]
  end.

(** The directory both hard-coded paths lie in. *)
Definition project_dir : path :=
  ["Users"; "travis"; "Documents"; "projects"; "claude-usage-pro";
   "Sources"; "ClaudeUsagePro"].

(** What [name] resolves to in a directory with entries [srcs]. *)
Definition child (srcs : entries) (name : string) : outcome errno node :=
  match FS.assoc name srcs with
  | Some c => Ok c
  | None => Raise ENOENT
  end.

(** The entries of the destination after a run whose reset went through,
    and what the run returns, [src] being what [source_dir] resolves to. *)
Definition catalog (now : stat_result) (src : outcome errno node)
  : entries * outcome exception unit :=
  match src with
  | Ok (Dir srcs) => convert now (child srcs) (files_of srcs) [root_entry now]
  | Ok (File _ _) => ([root_entry now], Raise (NotADirectoryError source_dir))
  | Raise e => ([root_entry now], Raise (OSError e source_dir))
  end.

(** The line printed by a run that returns. *)
Definition completion (r : outcome exception unit) : list string :=
  match r with
  | Ok _ => ["Migration complete"]
  | Raise _ => []
  end.

(** The entry the loop adds to the destination for the source entry
    [(name, n)]: a full image set for a regular file, the directory made
    before the copy fails otherwise. *)
Definition imageset_entry (now : stat_result) (e : string * node)
  : string * node :=
  (imageset_name (fst e),
   match snd e with
   | File data st => imageset_of now (fst e) data st
   | Dir _ => Dir []
   end).

(** The source entry called [f], as [src] resolves it. *)
Definition resolved (src : string -> outcome errno node) (f : string)
  : string * node :=
  (f, match src f with Ok n => n | Raise _ => Dir [] end).

(** The root descriptor, as text. *)
Definition root_descriptor_text : string :=
  Json.lines
    ["{";
     "  " ++ Json.quoted "info" ++ ": {";
     "    " ++ Json.quoted "author" ++ ": " ++ Json.quoted "xcode" ++ ",";
     "    " ++ Json.quoted "version" ++ ": 1";
     "  }";
     "}"].

(** The descriptor of an image set, as text. *)
Definition image_descriptor_text (filename : string) : string :=
  Json.lines
    ["{";
     "  " ++ Json.quoted "images" ++ ": [";
     "    {";
     "      " ++ Json.quoted "filename" ++ ": "
       ++ Json.encode_basestring_ascii filename ++ ",";
     "      " ++ Json.quoted "idiom" ++ ": " ++ Json.quoted "universal" ++ ",";
     "      " ++ Json.quoted "scale" ++ ": " ++ Json.quoted "1x";
     "    },";
     "    {";
     "      " ++ Json.quoted "idiom" ++ ": " ++ Json.quoted "universal" ++ ",";
     "      " ++ Json.quoted "scale" ++ ": " ++ Json.quoted "2x";
     "    },";
     "    {";
     "      " ++ Json.quoted "idiom" ++ ": " ++ Json.quoted "universal" ++ ",";
     "      " ++ Json.quoted "scale" ++ ": " ++ Json.quoted "3x";
     "    }";
     "  ],";
     "  " ++ Json.quoted "info" ++ ": {";
     "    " ++ Json.quoted "author" ++ ": " ++ Json.quoted "xcode" ++ ",";
     "    " ++ Json.quoted "version" ++ ": 1";
     "  }";
     "}"].

(** A source directory of regular files with image names and distinct
    names without extension. *)
Definition valid_images (srcs : entries) : Prop :=
  (forall name n, In (name, n) srcs ->
     is_image name = true /\ exists data st, n = File data st) /\
  NoDup (map name_without_ext (map fst srcs)).

(** Worlds used to exercise the statements: the project directory with
    the given source entries and nothing at the destination, or with the
    given node at the destination. *)
Definition sample_stat : stat_result :=
  {| st_mode := 420; st_atime := 1700000000; st_mtime := 1690000000 |}.
Definition sample_now : stat_result :=
  {| st_mode := 420; st_atime := 1710000000; st_mtime := 1710000000 |}.
Definition sample_world (srcs : entries) : world :=
  {| fs := single project_dir (Dir [("Assets", Dir srcs)]); stdout := [] |}.
Definition sample_world_with (srcs : entries) (dst : node) : world :=
  {| fs := single project_dir
             (Dir [("Assets", Dir srcs); ("Assets.xcassets", dst)]);
     stdout := [] |}.
Definition empty_world : world := {| fs := Dir []; stdout := [] |}.


(** The entries of a directory without the status of the files below. *)
Definition content_entries (es : entries) : entries :=
  map (fun kv : string * node => let (k, v) := kv in (k, content v)) es.


(** Characters [' '] to ['~']. *)
Definition printable (c : ascii) : bool :=
  let n := nat_of_ascii c in ((32 <=? n) && (n <=? 126))%nat.

Fixpoint string_forall (p : ascii -> bool) (s : string) : bool :=
  match s with
  | EmptyString => true
  | String c s' => p c && string_forall p s'
  end.

(** Text made of printable ASCII characters and line feeds. *)
Definition ascii_text (s : string) : bool :=
  string_forall (fun c => printable c || Ascii.eqb c Json.newline) s.

(* ================================================================== *)
(** * Properties *)

Open Scope list_scope.

(** ** Directory entries *)

Section Entries.

Import FS.

Lemma assoc_set_same k v es : assoc k (set_entry k v es) = Some v.
Proof.
  induction es as [|[k' v'] es IH]; simpl.
  - now rewrite String.eqb_refl.
  - destruct (String.eqb k k') eqn:E; simpl.
    + now rewrite String.eqb_refl.
    + now rewrite E.
Qed.

Lemma assoc_set_other k k' v es :
  k <> k' -> assoc k (set_entry k' v es) = assoc k es.
Proof.
  intros Hne. induction es as [|[j u] es IH]; simpl.
  - apply String.eqb_neq in Hne. now rewrite Hne.
  - destruct (String.eqb k' j) eqn:E; simpl.
    + apply String.eqb_eq in E. subst j.
      apply String.eqb_neq in Hne. now rewrite Hne.
    + now rewrite IH.
Qed.

Lemma assoc_app k es es' :
  assoc k (es ++ es') =
  match assoc k es with Some v => Some v | None => assoc k es' end.
Proof.
  induction es as [|[j u] es IH]; simpl; [reflexivity|].
  now destruct (String.eqb k j).
Qed.

Lemma set_entry_absent k v es :
  assoc k es = None -> set_entry k v es = (es ++ [(k, v)])%list.
Proof.
  induction es as [|[j u] es IH]; simpl; [reflexivity|].
  destruct (String.eqb k j); [discriminate|].
  intros H. now rewrite IH.
Qed.

Lemma set_entry_last k v v' es :
  assoc k es = None ->
  set_entry k v' (es ++ [(k, v)]) = (es ++ [(k, v')])%list.
Proof.
  induction es as [|[j u] es IH]; simpl.
  - now rewrite String.eqb_refl.
  - destruct (String.eqb k j); [discriminate|].
    intros H. now rewrite IH.
Qed.

Lemma assoc_single_other k j v : k <> j -> assoc k [(j, v)] = None.
Proof.
  intros H. apply String.eqb_neq in H. unfold assoc. now rewrite H.
Qed.

Lemma assoc_del_same k es : assoc k (del_entry k es) = None.
Proof.
  induction es as [|[j u] es IH]; simpl; [reflexivity|].
  destruct (String.eqb k j) eqn:E; simpl; [exact IH|].
  now rewrite E.
Qed.

Lemma assoc_del_other k k' es :
  k <> k' -> assoc k (del_entry k' es) = assoc k es.
Proof.
  intros Hne. induction es as [|[j u] es IH]; simpl; [reflexivity|].
  destruct (String.eqb k' j) eqn:E; simpl.
  - apply String.eqb_eq in E. subst j.
    apply String.eqb_neq in Hne. now rewrite Hne.
  - now rewrite IH.
Qed.

Lemma assoc_in k v es : assoc k es = Some v -> In (k, v) es.
Proof.
  induction es as [|[j u] es IH]; simpl; [discriminate|].
  destruct (String.eqb k j) eqn:E.
  - apply String.eqb_eq in E. intros [= ->]. subst. now left.
  - intros H. right. now apply IH.
Qed.

Lemma assoc_none_not_in k es :
  assoc k es = None <-> ~ In k (map fst es).
Proof.
  induction es as [|[j u] es IH]; simpl.
  - split; [intros _ []|reflexivity].
  - destruct (String.eqb k j) eqn:E.
    + apply String.eqb_eq in E. subst. split; [discriminate|].
      intros H. exfalso. apply H. now left.
    + apply String.eqb_neq in E. rewrite IH. split.
      * intros H [H1|H1]; [now apply E|now apply H].
      * intros H H1. apply H. now right.
Qed.

Lemma assoc_nodup k v es :
  NoDup (map fst es) -> In (k, v) es -> assoc k es = Some v.
Proof.
  induction es as [|[j u] es IH]; simpl; [intros _ []|].
  intros Hnd [Hin|Hin].
  - injection Hin as -> ->. now rewrite String.eqb_refl.
  - inversion Hnd as [|? ? Hj Hnd']; subst.
    destruct (String.eqb k j) eqn:E.
    + apply String.eqb_eq in E. subst j. exfalso. apply Hj.
      change k with (fst (k, v)). now apply in_map.
    + now apply IH.
Qed.

End Entries.

(** ** Paths *)

Lemma dirname_snoc (p : path) k : FS.dirname (p ++ [k]) = p.
Proof. apply removelast_last. Qed.

Lemma basename_snoc (p : path) k : FS.basename (p ++ [k]) = k.
Proof. apply last_last. Qed.

Lemma is_prefix_refl p : is_prefix p p = true.
Proof. induction p; simpl; [reflexivity|]. now rewrite String.eqb_refl. Qed.

Lemma is_prefix_app p r : is_prefix p (p ++ r) = true.
Proof. induction p; simpl; [reflexivity|]. now rewrite String.eqb_refl. Qed.

Lemma is_prefix_spec q p : is_prefix q p = true <-> exists r, p = (q ++ r)%list.
Proof.
  revert p. induction q as [|a q IH]; intros p; simpl.
  - split; [intros _; now exists p|reflexivity].
  - destruct p as [|b p].
    + split; [discriminate|]. intros [r Hr]. discriminate.
    + rewrite andb_true_iff, String.eqb_eq, IH. split.
      * intros [-> [r ->]]. now exists r.
      * intros [r [= -> ->]]. split; [reflexivity|now exists r].
Qed.

Lemma is_prefix_false_app q d r :
  is_prefix q d = false -> q = (d ++ r)%list -> r <> [].
Proof.
  intros H -> ->. rewrite app_nil_r, is_prefix_refl in H. discriminate.
Qed.

(** A path apart from [d] is apart from everything below [d]. *)
Lemma apart_below d r q : apart d q = true -> apart (d ++ r) q = true.
Proof.
  unfold apart. rewrite !andb_true_iff, !negb_true_iff.
  intros [H1 H2]. split.
  - destruct (is_prefix (d ++ r) q) eqn:E; [|reflexivity].
    apply is_prefix_spec in E. destruct E as [x ->].
    rewrite <- app_assoc, is_prefix_app in H1. discriminate.
  - destruct (is_prefix q (d ++ r)) eqn:E; [|reflexivity].
    exfalso. revert q H1 H2 E. induction d as [|a d IH]; intros q H1 H2 E.
    + simpl in H1. discriminate.
    + destruct q as [|b q]; [discriminate|]. simpl in *.
      destruct (String.eqb b a) eqn:Eb.
      * apply String.eqb_eq in Eb. subst b. rewrite String.eqb_refl in H1.
        simpl in *. now apply (IH q).
      * discriminate.
Qed.

(** ** Trees *)

Section Trees.

Import FS.

Lemma lookup_app c r n :
  lookup (c ++ r) n =
  match lookup c n with Ok x => lookup r x | Raise e => Raise e end.
Proof.
  revert n. induction c as [|a c IH]; intros n; simpl; [reflexivity|].
  destruct n as [|es]; [reflexivity|].
  destruct (assoc a es); [apply IH|reflexivity].
Qed.

Lemma lookup_graft_below c r y n x :
  lookup c n = Ok x -> lookup c (graft (c ++ r) y n) = Ok (graft r y x).
Proof.
  revert n. induction c as [|a c IH]; intros n; simpl.
  - now intros [= ->].
  - destruct n as [|es]; [discriminate|].
    destruct (assoc a es) as [ch|] eqn:E; [|discriminate].
    intros H. simpl. rewrite assoc_set_same. now apply IH.
Qed.

Lemma lookup_graft c y n x :
  lookup c n = Ok x -> lookup c (graft c y n) = Ok y.
Proof.
  intros H. rewrite <- (app_nil_r c) at 2.
  now rewrite (lookup_graft_below c [] y n x H).
Qed.

(** The general frame property of a change to the entries of a directory. *)
Lemma lookup_graft_frame d es es' n q :
  lookup d n = Ok (Dir es) ->
  is_prefix q d = false ->
  (forall r, q = (d ++ r)%list -> lookup r (Dir es') = lookup r (Dir es)) ->
  lookup q (graft d (Dir es') n) = lookup q n.
Proof.
  revert n q. induction d as [|a d IH]; intros n q Hd Hq Hr; simpl in *.
  - injection Hd as ->. now apply Hr.
  - destruct n as [|E]; [discriminate|].
    destruct (assoc a E) as [c|] eqn:Ea; [|discriminate].
    destruct q as [|b q]; [discriminate|]. simpl in *.
    destruct (String.eqb b a) eqn:Eb.
    + apply String.eqb_eq in Eb. subst b.
      rewrite assoc_set_same, Ea. apply IH; auto.
      intros r ->. now apply Hr.
    + apply String.eqb_neq in Eb. now rewrite assoc_set_other.
Qed.

(** A change to the entry [k] alone is not seen from a path apart from
    [d/k]. *)
Lemma lookup_graft_apart d k es es' n q :
  lookup d n = Ok (Dir es) ->
  (forall j, j <> k -> assoc j es' = assoc j es) ->
  apart (d ++ [k]) q = true ->
  lookup q (graft d (Dir es') n) = lookup q n.
Proof.
  intros Hd Hk Hq. unfold apart in Hq.
  apply andb_true_iff in Hq. destruct Hq as [H1 H2].
  apply negb_true_iff in H1, H2.
  destruct (is_prefix q d) eqn:Epre.
  - apply is_prefix_spec in Epre. destruct Epre as [r ->].
    rewrite <- app_assoc, is_prefix_app in H2. discriminate.
  - apply lookup_graft_frame with (es := es); auto.
    intros r ->. destruct r as [|j r].
    + rewrite app_nil_r, is_prefix_refl in Epre. discriminate.
    + simpl. rewrite Hk; [reflexivity|].
      intros ->. change (d ++ k :: r)%list with (d ++ [k] ++ r)%list in H1.
      rewrite app_assoc, is_prefix_app in H1. discriminate.
Qed.

(** A new empty directory [d/k] is seen only at [d/k] and from the
    ancestors of [d/k]. *)
Lemma lookup_graft_mkdir d k es n q :
  lookup d n = Ok (Dir es) ->
  assoc k es = None ->
  is_prefix q (d ++ [k]) = false ->
  lookup q (graft d (Dir (es ++ [(k, Dir [])])) n) = lookup q n.
Proof.
  intros Hd Hk Hq.
  destruct (is_prefix q d) eqn:Epre.
  - apply is_prefix_spec in Epre. destruct Epre as [r ->].
    rewrite <- app_assoc, is_prefix_app in Hq. discriminate.
  - apply lookup_graft_frame with (es := es); auto.
    intros r ->. destruct r as [|j r].
    + rewrite app_nil_r, is_prefix_refl in Epre. discriminate.
    + simpl. rewrite assoc_app.
      destruct (String.eqb j k) eqn:Ej.
      * apply String.eqb_eq in Ej. subst j. rewrite Hk. simpl.
        rewrite String.eqb_refl. destruct r as [|x r].
        -- rewrite is_prefix_refl in Hq. discriminate.
        -- reflexivity.
      * destruct (assoc j es); [reflexivity|]. simpl. now rewrite Ej.
Qed.

(** [at_dir] is determined by what its path resolves to. *)
Lemma at_dir_lookup d f n :
  at_dir d f n =
  match lookup d n with
  | Ok (Dir es) =>
      match f es with
      | Ok es' => Ok (graft d (Dir es') n)
      | Raise e => Raise e
      end
  | Ok (File _ _) => Raise ENOTDIR
  | Raise e => Raise e
  end.
Proof.
  revert n. induction d as [|a d IH]; intros n; simpl.
  - destruct n as [|es]; [reflexivity|]. now destruct (f es).
  - destruct n as [|E]; [reflexivity|].
    destruct (assoc a E) as [c|] eqn:Ea; [|reflexivity].
    rewrite IH. destruct (lookup d c) as [[|es]|]; try reflexivity.
    now destruct (f es).
Qed.

End Trees.

(** ** The library calls, on a path [d/k] *)

Section Calls.

Import FS.

Lemma snoc_not_nil (d : path) k : d ++ [k] <> [].
Proof. now destruct d. Qed.

Lemma mkdir_snoc d k n :
  mkdir (d ++ [k]) n =
  match lookup d n with
  | Ok (Dir es) =>
      match assoc k es with
      | Some _ => Raise (FileExistsError (d ++ [k]))
      | None => Ok (graft d (Dir (es ++ [(k, Dir [])])) n)
      end
  | Ok (File _ _) => Raise (NotADirectoryError (d ++ [k]))
  | Raise e => Raise (OSError e (d ++ [k]))
  end.
Proof.
  unfold mkdir. destruct (d ++ [k]) eqn:E; [now destruct d|]. rewrite <- E.
  rewrite dirname_snoc, basename_snoc, at_dir_lookup.
  destruct (lookup d n) as [[|es]|]; try reflexivity.
  unfold mkdir_entry. now destruct (assoc k es).
Qed.

Lemma store_snoc d k data st n :
  store (d ++ [k]) data st n =
  match lookup d n with
  | Ok (Dir es) =>
      match store_entry k data st es with
      | Ok es' => Ok (graft d (Dir es') n)
      | Raise e => Raise (OSError e (d ++ [k]))
      end
  | Ok (File _ _) => Raise (NotADirectoryError (d ++ [k]))
  | Raise e => Raise (OSError e (d ++ [k]))
  end.
Proof.
  unfold store. destruct (d ++ [k]) eqn:E; [now destruct d|]. rewrite <- E.
  rewrite dirname_snoc, basename_snoc, at_dir_lookup.
  destruct (lookup d n) as [[|es]|]; try reflexivity.
  now destruct (store_entry k data st es).
Qed.

Lemma store_entry_other k data st es es' j :
  store_entry k data st es = Ok es' -> j <> k -> assoc j es' = assoc j es.
Proof.
  unfold store_entry. intros H Hj.
  destruct (assoc k es) as [[|]|]; try discriminate;
    injection H as <-; now apply assoc_set_other.
Qed.

Lemma rmtree_snoc d k n es :
  lookup (d ++ [k]) n = Ok (Dir es) ->
  exists P, lookup d n = Ok (Dir P) /\ assoc k P = Some (Dir es) /\
            rmtree (d ++ [k]) n = Ok (graft d (Dir (del_entry k P)) n).
Proof.
  intros H. unfold rmtree. rewrite H.
  rewrite lookup_app in H.
  destruct (lookup d n) as [[|P]|] eqn:Ed; try discriminate.
  simpl in H. destruct (assoc k P) as [c|] eqn:Ek; [|discriminate].
  injection H as ->. exists P. split; [reflexivity|]. split; [assumption|].
  destruct (d ++ [k]) eqn:E; [now destruct d|]. rewrite <- E.
  now rewrite dirname_snoc, basename_snoc, at_dir_lookup, Ed.
Qed.

Lemma makedirs_snoc d k n :
  exists_ d n = true -> makedirs (d ++ [k]) n = mkdir (d ++ [k]) n.
Proof.
  intros H. unfold makedirs. rewrite rev_unit. simpl.
  rewrite rev_involutive, H. simpl.
  now destruct (mkdir (d ++ [k]) n).
Qed.

Lemma mkdir_ok p n n' :
  mkdir p n = Ok n' ->
  lookup p n' = Ok (Dir []) /\
  forall q, is_prefix q p = false -> lookup q n' = lookup q n.
Proof.
  destruct p as [|a p0]; [discriminate|].
  assert (Hne : a :: p0 <> []) by discriminate.
  destruct (exists_last Hne) as [d [k ->]].
  rewrite mkdir_snoc.
  destruct (lookup d n) as [[|es]|] eqn:Ed; try discriminate.
  destruct (assoc k es) eqn:Ek; [discriminate|].
  intros [= <-]. split.
  - rewrite lookup_app, (lookup_graft d _ n (Dir es) Ed). simpl.
    rewrite assoc_app, Ek. simpl. now rewrite String.eqb_refl.
  - intros q Hq. now apply lookup_graft_mkdir.
Qed.

Lemma is_prefix_snoc q d k :
  is_prefix q (d ++ [k]) = false -> is_prefix q d = false.
Proof.
  intros H. destruct (is_prefix q d) eqn:E; [|reflexivity].
  apply is_prefix_spec in E. destruct E as [r ->].
  rewrite <- app_assoc, is_prefix_app in H. discriminate.
Qed.

Lemma makedirs_rev_ok rp n n' :
  makedirs_rev rp false n = Ok n' ->
  lookup (rev rp) n' = Ok (Dir []) /\
  forall q, is_prefix q (rev rp) = false -> lookup q n' = lookup q n.
Proof.
  revert n n'. induction rp as [|k rh IH]; intros n n'; simpl.
  - discriminate.
  - destruct (negb (exists_ (rev rh) n)).
    + destruct (makedirs_rev rh false n) as [n1|e] eqn:E1.
      * destruct (mkdir (rev rh ++ [k]) n1) as [n2|] eqn:E2; [|discriminate].
        intros [= <-]. destruct (IH _ _ E1) as [_ F1].
        destruct (mkdir_ok _ _ _ E2) as [L2 F2]. split; [exact L2|].
        intros q Hq. rewrite F2 by exact Hq.
        apply F1. now apply is_prefix_snoc with (k := k).
      * destruct e as [[] ?|]; try discriminate.
        destruct (mkdir (rev rh ++ [k]) n) as [n2|] eqn:E2; [|discriminate].
        intros [= <-]. now apply mkdir_ok.
    + destruct (mkdir (rev rh ++ [k]) n) as [n2|] eqn:E2; [|discriminate].
      intros [= <-]. now apply mkdir_ok.
Qed.

Lemma makedirs_ok p n n' :
  makedirs p n = Ok n' ->
  lookup p n' = Ok (Dir []) /\
  forall q, is_prefix q p = false -> lookup q n' = lookup q n.
Proof.
  unfold makedirs. intros H. apply makedirs_rev_ok in H.
  now rewrite rev_involutive in H.
Qed.

End Calls.

(** ** Calls below a directory [d] whose entries are known *)

Section Below.

Import FS.

Variable d : path.

Lemma makedirs_child_exists n D k c :
  lookup d n = Ok (Dir D) -> assoc k D = Some c ->
  makedirs (d ++ [k]) n = Raise (FileExistsError (d ++ [k])).
Proof.
  intros Hd Hk. rewrite makedirs_snoc by (unfold exists_; now rewrite Hd).
  now rewrite mkdir_snoc, Hd, Hk.
Qed.

Lemma makedirs_child n D k :
  lookup d n = Ok (Dir D) -> assoc k D = None ->
  exists n',
    makedirs (d ++ [k]) n = Ok n' /\
    lookup d n' = Ok (Dir (D ++ [(k, Dir [])])) /\
    forall q, apart d q = true -> lookup q n' = lookup q n.
Proof.
  intros Hd Hk. rewrite makedirs_snoc by (unfold exists_; now rewrite Hd).
  rewrite mkdir_snoc, Hd, Hk. eexists. split; [reflexivity|]. split.
  - now apply lookup_graft with (x := Dir D).
  - intros q Hq. apply lookup_graft_mkdir; auto.
    apply (apart_below d [k]) in Hq. unfold apart in Hq.
    apply andb_true_iff in Hq. destruct Hq as [_ Hq].
    now apply negb_true_iff in Hq.
Qed.

Lemma lookup_child n D k C :
  lookup d n = Ok (Dir (D ++ [(k, C)])) -> assoc k D = None ->
  lookup (d ++ [k]) n = Ok C.
Proof.
  intros Hd Hk. rewrite lookup_app, Hd. simpl.
  rewrite assoc_app, Hk. simpl. now rewrite String.eqb_refl.
Qed.

Lemma store_grandchild n D k C name data st C' :
  lookup d n = Ok (Dir (D ++ [(k, Dir C)])) -> assoc k D = None ->
  store_entry name data st C = Ok C' ->
  exists n',
    store ((d ++ [k]) ++ [name]) data st n = Ok n' /\
    lookup d n' = Ok (Dir (D ++ [(k, Dir C')])) /\
    forall q, apart d q = true -> lookup q n' = lookup q n.
Proof.
  intros Hd Hk Hs. pose proof (lookup_child _ _ _ _ Hd Hk) as Hc.
  rewrite store_snoc, Hc, Hs. eexists. split; [reflexivity|]. split.
  - rewrite (lookup_graft_below d [k] _ n _ Hd). simpl.
    rewrite assoc_app, Hk. simpl. rewrite String.eqb_refl.
    now rewrite set_entry_last.
  - intros q Hq. apply lookup_graft_apart with (k := name) (es := C); auto.
    + intros j Hj. now apply store_entry_other with (1 := Hs).
    + rewrite <- app_assoc. now apply apart_below.
Qed.

End Below.

(** ** The two hard-coded paths *)

Lemma source_apart_dest r : apart dest_dir (source_dir ++ r) = true.
Proof. reflexivity. Qed.

Lemma source_dest_distinct a b :
  FS.path_eqb (source_dir ++ a) (dest_dir ++ b) = false.
Proof. reflexivity. Qed.

Lemma dest_dir_eq : dest_dir = project_dir ++ ["Assets.xcassets"].
Proof. reflexivity. Qed.

Lemma source_dir_eq : source_dir = project_dir ++ ["Assets"].
Proof. reflexivity. Qed.

Opaque source_dir dest_dir project_dir.

(** ** The loop *)

Section Loop.

Import FS.

Lemma is_image_not_contents f : is_image f = true -> "Contents.json" <> f.
Proof. intros H <-. discriminate H. Qed.

Lemma imageset_dir_eq f : imageset_dir f = dest_dir ++ [imageset_name f].
Proof. reflexivity. Qed.

Lemma same_outside_dest_refl n : same_outside_dest n n.
Proof. now intros q _. Qed.

Lemma same_outside_dest_trans n1 n2 n3 :
  same_outside_dest n1 n2 -> same_outside_dest n2 n3 ->
  same_outside_dest n1 n3.
Proof. intros H1 H2 q Hq. now rewrite H2, H1. Qed.

Variable now : stat_result.

(** One turn of the loop, on the entries of the destination. *)
Lemma migrate_file_convert f w D :
  lookup dest_dir (fs w) = Ok (Dir D) ->
  is_image f = true ->
  exists w',
    migrate_file now f w = (w', snd (convert_file now (source_file w) f D)) /\
    lookup dest_dir (fs w') =
      Ok (Dir (fst (convert_file now (source_file w) f D))) /\
    same_outside_dest (fs w) (fs w') /\
    stdout w' = stdout w.
Proof.
  intros Hd Himg. unfold migrate_file, convert_file, dump_to, bind, update.
  rewrite imageset_dir_eq.
  destruct (assoc (imageset_name f) D) as [c|] eqn:Ek.
  - rewrite (makedirs_child_exists dest_dir _ _ _ _ Hd Ek).
    exists w. simpl. auto using same_outside_dest_refl.
  - destruct (makedirs_child dest_dir _ _ _ Hd Ek) as [n1 [-> [L1 F1]]].
    simpl fs.
    assert (Hsrc : lookup (source_dir ++ [f]) n1 = source_file w f)
      by (apply F1, source_apart_dest).
    pose proof (lookup_child dest_dir _ _ _ _ L1 Ek) as Hc.
    unfold copy2.
    assert (Hdir : isdir ((dest_dir ++ [imageset_name f]) ++ [f]) n1 = false)
      by (unfold isdir; now rewrite lookup_app, Hc).
    rewrite Hdir, <- app_assoc, source_dest_distinct, app_assoc, Hsrc.
    simpl andb. cbv iota.
    destruct (source_file w f) as [[data st|sub]|e] eqn:Es.
    + destruct (store_grandchild dest_dir n1 D (imageset_name f) [] f data
                  (fun _ => st) [(f, File data st)] L1 Ek eq_refl)
        as [n2 [-> [L2 F2]]].
      simpl fs.
      destruct (store_grandchild dest_dir n2 D (imageset_name f)
                  [(f, File data st)] "Contents.json"
                  (Json.dumps (imageset_contents f) 2) (written now)
                  [(f, File data st);
                   ("Contents.json",
                    File (Json.dumps (imageset_contents f) 2) now)] L2 Ek)
        as [n3 [E3 [L3 F3]]].
      { apply is_image_not_contents in Himg.
        pose proof (assoc_single_other _ _ (File data st) Himg) as Ea.
        unfold store_entry. rewrite Ea.
        now rewrite (set_entry_absent _ _ _ Ea). }
      unfold write_text. rewrite E3. eexists. split; [reflexivity|].
      simpl. split; [exact L3|]. split; [|reflexivity].
      intros q Hq. now rewrite F3, F2, F1.
    + eexists. split; [reflexivity|]. simpl. auto.
    + eexists. split; [reflexivity|]. simpl. auto.
Qed.

Lemma convert_ext src src' files D :
  (forall f, src f = src' f) ->
  convert now src files D = convert now src' files D.
Proof.
  intros H. revert D. induction files as [|f files IH]; intros D; simpl.
  - reflexivity.
  - unfold convert_file. rewrite (H f).
    destruct (assoc (imageset_name f) D); [reflexivity|].
    destruct (src' f) as [[|]|]; auto.
Qed.

(** The loop, on the entries of the destination. *)
Lemma for_each_convert files w D :
  lookup dest_dir (fs w) = Ok (Dir D) ->
  Forall (fun f => is_image f = true) files ->
  exists w',
    for_each files (migrate_file now) w =
      (w', snd (convert now (source_file w) files D)) /\
    lookup dest_dir (fs w') =
      Ok (Dir (fst (convert now (source_file w) files D))) /\
    same_outside_dest (fs w) (fs w') /\
    stdout w' = stdout w.
Proof.
  revert w D. induction files as [|f files IH]; intros w D Hd Himg.
  - exists w. simpl. unfold ret. auto using same_outside_dest_refl.
  - inversion Himg as [|? ? Hf Hrest]; subst.
    destruct (migrate_file_convert f w D Hd Hf) as [w1 [E1 [L1 [F1 O1]]]].
    simpl. unfold bind. rewrite E1.
    destruct (convert_file now (source_file w) f D) as [D1 [[]|e]] eqn:Ec;
      simpl in *.
    + destruct (IH w1 D1 L1 Hrest) as [w2 [E2 [L2 [F2 O2]]]].
      assert (Hx : convert now (source_file w1) files D1 =
                   convert now (source_file w) files D1).
      { apply convert_ext. intros g. unfold source_file.
        apply F1, source_apart_dest. }
      rewrite Hx in E2, L2. exists w2. split; [exact E2|].
      split; [exact L2|]. split; [|congruence].
      now apply same_outside_dest_trans with (n2 := fs w1).
    + exists w1. auto.
Qed.

End Loop.

(** ** The run *)

Section Run.

Import FS.

Lemma apart_not_prefix p q : apart p q = true -> is_prefix q p = false.
Proof.
  unfold apart. intros H. apply andb_true_iff in H. destruct H as [_ H].
  now apply negb_true_iff in H.
Qed.

(** Lines 8-10 when the destination is a regular file. *)
Lemma reset_file w data st :
  lookup dest_dir (fs w) = Ok (File data st) ->
  reset_destination w = (w, Raise (NotADirectoryError dest_dir)).
Proof.
  intros H. unfold reset_destination, bind, query, exists_. rewrite H.
  unfold update, rmtree. now rewrite H.
Qed.

(** Lines 8-10 when the destination is a directory. *)
Lemma reset_dir w D :
  lookup dest_dir (fs w) = Ok (Dir D) ->
  exists w0,
    reset_destination w = (w0, Ok tt) /\
    lookup dest_dir (fs w0) = Ok (Dir []) /\
    same_outside_dest (fs w) (fs w0) /\
    stdout w0 = stdout w.
Proof.
  intros H. unfold reset_destination, bind, query, exists_. rewrite H.
  unfold update. rewrite dest_dir_eq in *.
  destruct (rmtree_snoc _ _ _ _ H) as [P [HP [Hk ->]]].
  cbn [fs].
  set (n1 := graft project_dir (Dir (del_entry "Assets.xcassets" P)) (fs w)).
  assert (L1 : lookup project_dir n1 =
               Ok (Dir (del_entry "Assets.xcassets" P)))
    by now apply lookup_graft with (x := Dir P).
  destruct (makedirs_child project_dir n1 _ "Assets.xcassets" L1
              (assoc_del_same _ _)) as [n2 [E2 _]].
  rewrite E2. eexists. split; [reflexivity|]. cbn [fs stdout].
  destruct (makedirs_ok _ _ _ E2) as [L2 F2]. split; [exact L2|].
  split; [|reflexivity].
  intros q Hq. rewrite F2 by now apply apart_not_prefix.
  unfold n1. apply lookup_graft_apart with (k := "Assets.xcassets") (es := P);
    auto.
  intros j Hj. now apply assoc_del_other.
Qed.

(** Lines 8-10 when the destination does not resolve. *)
Lemma reset_missing w e :
  lookup dest_dir (fs w) = Raise e ->
  (exists e', reset_destination w = (w, Raise e')) \/
  (exists w0,
     reset_destination w = (w0, Ok tt) /\
     lookup dest_dir (fs w0) = Ok (Dir []) /\
     same_outside_dest (fs w) (fs w0) /\
     stdout w0 = stdout w).
Proof.
  intros H. unfold reset_destination, bind, query, update, exists_, ret.
  rewrite H. destruct (makedirs dest_dir (fs w)) as [n0|e'] eqn:E.
  - right. eexists. split; [reflexivity|]. simpl.
    destruct (makedirs_ok _ _ _ E) as [L F]. split; [exact L|].
    split; [|reflexivity]. intros q Hq. apply F. now apply apart_not_prefix.
  - left. now exists e'.
Qed.

(** Lines 8-10 either raise and change nothing, or leave an empty
    destination and everything apart from it as it was. *)
Lemma reset_cases w :
  (exists e, reset_destination w = (w, Raise e)) \/
  (exists w0,
     reset_destination w = (w0, Ok tt) /\
     lookup dest_dir (fs w0) = Ok (Dir []) /\
     same_outside_dest (fs w) (fs w0) /\
     stdout w0 = stdout w).
Proof.
  destruct (lookup dest_dir (fs w)) as [[data st|D]|e] eqn:E.
  - left. eexists. now apply reset_file with (data := data) (st := st).
  - right. now apply reset_dir with (D := D).
  - now apply reset_missing with (e := e).
Qed.

Variable now : stat_result.

(** Lines 13-19 in an empty destination. *)
Lemma write_root_empty w0 :
  lookup dest_dir (fs w0) = Ok (Dir []) ->
  exists w1,
    write_root_contents now w0 = (w1, Ok tt) /\
    lookup dest_dir (fs w1) = Ok (Dir [root_entry now]) /\
    same_outside_dest (fs w0) (fs w1) /\
    stdout w1 = stdout w0.
Proof.
  intros H. unfold write_root_contents, dump_to, update, write_text.
  rewrite store_snoc, H. simpl. eexists. split; [reflexivity|]. simpl.
  split; [now apply lookup_graft with (x := Dir [])|]. split; [|reflexivity].
  intros q Hq.
  apply lookup_graft_apart with (k := "Contents.json") (es := []); auto.
  - intros j Hj. simpl. apply String.eqb_neq in Hj. now rewrite Hj.
  - now apply apart_below.
Qed.

Lemma source_file_child n srcs f :
  lookup source_dir n = Ok (Dir srcs) ->
  lookup (source_dir ++ [f]) n = child srcs f.
Proof.
  intros H. rewrite lookup_app, H. unfold child. simpl.
  now destruct (assoc f srcs).
Qed.

Lemma files_of_images srcs : Forall (fun f => is_image f = true) (files_of srcs).
Proof.
  apply Forall_forall. intros f Hf. unfold files_of in Hf.
  now apply filter_In in Hf.
Qed.

(** Lines 21-53 in a destination with entries [D]. *)
Lemma migrate_files_convert w D :
  lookup dest_dir (fs w) = Ok (Dir D) ->
  exists w',
    migrate_files now w =
      (w', snd (match lookup source_dir (fs w) with
                | Ok (Dir srcs) => convert now (child srcs) (files_of srcs) D
                | Ok (File _ _) => (D, Raise (NotADirectoryError source_dir))
                | Raise e => (D, Raise (OSError e source_dir))
                end)) /\
    lookup dest_dir (fs w') =
      Ok (Dir (fst (match lookup source_dir (fs w) with
                    | Ok (Dir srcs) => convert now (child srcs) (files_of srcs) D
                    | Ok (File _ _) =>
                        (D, Raise (NotADirectoryError source_dir))
                    | Raise e => (D, Raise (OSError e source_dir))
                    end))) /\
    same_outside_dest (fs w) (fs w') /\
    stdout w' = stdout w.
Proof.
  intros H. unfold migrate_files, bind, attempt, listdir.
  destruct (lookup source_dir (fs w)) as [[data st|srcs]|e] eqn:Es.
  - exists w. simpl. auto using same_outside_dest_refl.
  - destruct (for_each_convert now (files_of srcs) w D H (files_of_images srcs))
      as [w' [E [L [F O]]]].
    assert (Hx : convert now (source_file w) (files_of srcs) D =
                 convert now (child srcs) (files_of srcs) D).
    { apply convert_ext. intros f. now apply source_file_child. }
    rewrite Hx in E, L. exists w'. auto.
  - exists w. simpl. auto using same_outside_dest_refl.
Qed.

(** The whole run: either the reset raises and nothing has changed, or the
    destination holds what [catalog] computes from the source and the run
    returns what [catalog] says. *)
Lemma migrate_assets_cases w :
  (exists e,
     reset_destination w = (w, Raise e) /\
     migrate_assets now w = (w, Raise e)) \/
  (exists w0 w1 w',
     reset_destination w = (w0, Ok tt) /\
     write_root_contents now w0 = (w1, Ok tt) /\
     lookup dest_dir (fs w1) = Ok (Dir [root_entry now]) /\
     same_outside_dest (fs w) (fs w1) /\
     stdout w1 = stdout w /\
     migrate_files now w1 =
       (w', snd (catalog now (lookup source_dir (fs w)))) /\
     migrate_assets now w =
       ({| fs := fs w';
           stdout := stdout w ++
                     completion (snd (catalog now (lookup source_dir (fs w))))
        |},
        snd (catalog now (lookup source_dir (fs w)))) /\
     lookup dest_dir (fs w') =
       Ok (Dir (fst (catalog now (lookup source_dir (fs w))))) /\
     same_outside_dest (fs w) (fs w')).
Proof.
  destruct (reset_cases w) as [[e E]|[w0 [E0 [L0 [F0 O0]]]]].
  - left. exists e. split; [exact E|].
    unfold migrate_assets, bind. now rewrite E.
  - right.
    destruct (write_root_empty w0 L0) as [w1 [E1 [L1 [F1 O1]]]].
    destruct (migrate_files_convert w1 _ L1) as [w' [E2 [L2 [F2 O2]]]].
    assert (Hs : lookup source_dir (fs w1) = lookup source_dir (fs w)).
    { rewrite F1, F0; auto; apply (source_apart_dest []). }
    rewrite Hs in E2, L2.
    assert (Hc : match lookup source_dir (fs w) with
                 | Ok (Dir srcs) =>
                     convert now (child srcs) (files_of srcs) [root_entry now]
                 | Ok (File _ _) =>
                     ([root_entry now], Raise (NotADirectoryError source_dir))
                 | Raise e => ([root_entry now], Raise (OSError e source_dir))
                 end = catalog now (lookup source_dir (fs w))) by reflexivity.
    rewrite Hc in E2, L2.
    exists w0, w1, w'. split; [exact E0|]. split; [exact E1|].
    split; [exact L1|].
    split; [now apply same_outside_dest_trans with (n2 := fs w0)|].
    split; [congruence|].
    split; [exact E2|]. split.
    + unfold migrate_assets, bind. rewrite E0, E1, E2. cbv beta iota.
      match goal with
      | |- match ?x with Ok _ => _ | Raise _ => _ end = _ =>
          change x with (snd (catalog now (lookup source_dir (fs w))))
      end.
      destruct (snd (catalog now (lookup source_dir (fs w)))) as [[]|e].
      * unfold print. simpl. now rewrite O2, O1, O0.
      * simpl. rewrite app_nil_r. destruct w' as [n' o']. simpl in *.
        now rewrite O2, O1, O0.
    + split; [exact L2|].
      apply same_outside_dest_trans with (n2 := fs w1); auto.
      now apply same_outside_dest_trans with (n2 := fs w0).
Qed.

End Run.

(** ** Strings *)

Section Strings.

Open Scope string_scope.

Lemma string_app_assoc (a b c : string) : (a ++ b) ++ c = a ++ (b ++ c).
Proof. induction a as [|x a IH]; simpl; [reflexivity|now rewrite IH]. Qed.

Lemma string_length_app (a b : string) :
  String.length (a ++ b) = String.length a + String.length b.
Proof. induction a as [|x a IH]; simpl; [reflexivity|now rewrite IH]. Qed.

Lemma string_app_inv_tail (a b t : string) : a ++ t = b ++ t -> a = b.
Proof.
  revert b. induction a as [|x a IH]; intros [|y b] H; simpl in *.
  - reflexivity.
  - apply (f_equal String.length) in H. simpl in H.
    rewrite string_length_app in H. lia.
  - apply (f_equal String.length) in H. simpl in H.
    rewrite string_length_app in H. lia.
  - injection H as -> H. f_equal. now apply IH.
Qed.

Lemma endswith_spec s suffix :
  Py.endswith s suffix = true <-> exists pre, s = pre ++ suffix.
Proof.
  induction s as [|c s IH]; cbn [Py.endswith].
  - destruct (String.eqb_spec "" suffix) as [<-|Hne]; cbv iota.
    + split; [now exists ""|reflexivity].
    + split; [discriminate|]. intros [[|x pre] H]; simpl in H.
      * now elim Hne.
      * discriminate.
  - destruct (String.eqb_spec (String c s) suffix) as [<-|Hne]; cbv iota.
    + split; [now exists ""|reflexivity].
    + rewrite IH. split.
      * intros [pre ->]. now exists (String c pre).
      * intros [[|x pre] H]; simpl in H.
        -- now elim Hne.
        -- injection H as -> ->. now exists pre.
Qed.

Lemma lower_app a b : Py.lower (a ++ b) = Py.lower a ++ Py.lower b.
Proof. induction a as [|x a IH]; simpl; [reflexivity|now rewrite IH]. Qed.

Lemma lower_app_inv s p t :
  Py.lower s = p ++ t ->
  exists a b, s = a ++ b /\ Py.lower a = p /\ Py.lower b = t.
Proof.
  revert s. induction p as [|x p IH]; intros s H; simpl in H.
  - now exists "", s.
  - destruct s as [|c s]; [discriminate|]. simpl in H.
    injection H as Hc H. destruct (IH s H) as [a [b [-> [Ha Hb]]]].
    exists (String c a), b. simpl. now rewrite Ha, Hc.
Qed.

Lemma same_letter_lower c : same_letter c (Py.lower_char c) = true.
Proof. destruct c as [[] [] [] [] [] [] [] []]; reflexivity. Qed.

Lemma same_letter_lowered c x :
  same_letter c x = true -> Py.lower_char x = x -> Py.lower_char c = x.
Proof.
  intros H Hx. unfold same_letter in H.
  apply orb_true_iff in H. destruct H as [H|H].
  - apply orb_true_iff in H. destruct H as [H|H].
    + apply Nat.eqb_eq in H.
      apply (f_equal ascii_of_nat) in H. rewrite !ascii_nat_embedding in H.
      now subst.
    + apply andb_true_iff in H. destruct H as [Hu H]. apply Nat.eqb_eq in H.
      unfold Py.lower_char. fold (upper_case (nat_of_ascii c)). rewrite Hu.
      rewrite H. apply ascii_nat_embedding.
  - apply andb_true_iff in H. destruct H as [Hu H]. exfalso.
    unfold Py.lower_char in Hx. fold (upper_case (nat_of_ascii x)) in Hx.
    rewrite Hu in Hx. apply (f_equal nat_of_ascii) in Hx.
    pose proof (nat_ascii_bounded x) as Hb.
    rewrite nat_ascii_embedding in Hx.
    + lia.
    + unfold upper_case in Hu.
      repeat (apply orb_true_iff in Hu; destruct Hu as [Hu|Hu]);
        apply andb_true_iff in Hu; destruct Hu as [_ Hu];
        apply Nat.leb_le in Hu; lia.
Qed.

Lemma equal_ignoring_case_lower s :
  equal_ignoring_case s (Py.lower s) = true.
Proof.
  induction s as [|c s IH]; simpl; [reflexivity|].
  now rewrite same_letter_lower, IH.
Qed.

Lemma equal_ignoring_case_lowered s t :
  equal_ignoring_case s t = true -> Py.lower t = t -> Py.lower s = t.
Proof.
  revert t. induction s as [|c s IH]; intros [|x t] H Ht; simpl in *;
    try discriminate; [reflexivity|].
  apply andb_true_iff in H. destruct H as [Hc H].
  injection Ht as Hx Ht. f_equal.
  - now apply same_letter_lowered.
  - now apply IH.
Qed.

(** The filter of line 21, in the words of a case-insensitive suffix. *)
Lemma is_image_spec f :
  is_image f = true <->
  exists suffix,
    In suffix [".png"; ".jpg"; ".jpeg"] /\ ends_with_ignoring_case f suffix.
Proof.
  unfold is_image, Py.endswith_any. rewrite existsb_exists. split.
  - intros [suffix [Hin H]]. exists suffix. split; [exact Hin|].
    apply endswith_spec in H. destruct H as [p H].
    apply lower_app_inv in H. destruct H as [a [b [-> [_ <-]]]].
    exists a, b. split; [reflexivity|apply equal_ignoring_case_lower].
  - intros [suffix [Hin [a [b [-> H]]]]]. exists suffix. split; [exact Hin|].
    apply endswith_spec. exists (Py.lower a). rewrite lower_app. f_equal.
    apply equal_ignoring_case_lowered; [exact H|].
    simpl in Hin. destruct Hin as [<-|[<-|[<-|[]]]]; reflexivity.
Qed.

Lemma imageset_name_inj f g :
  imageset_name f = imageset_name g -> name_without_ext f = name_without_ext g.
Proof. unfold imageset_name. apply string_app_inv_tail. Qed.

Lemma imageset_name_not_contents f : imageset_name f <> "Contents.json".
Proof.
  intros H.
  assert (E : Py.endswith (imageset_name f) ".imageset" = true)
    by (apply endswith_spec; now exists (name_without_ext f)).
  rewrite H in E. discriminate E.
Qed.

End Strings.

(** ** The descriptors as text *)

Lemma root_contents_text : Json.dumps root_contents 2 = root_descriptor_text.
Proof. reflexivity. Qed.

Lemma imageset_contents_text f :
  Json.dumps (imageset_contents f) 2 = image_descriptor_text f.
Proof.
  unfold image_descriptor_text, Json.dumps, imageset_contents.
  cbn [Json.iterencode map].
  generalize (Json.encode_basestring_ascii f). intros x.
  vm_compute. now rewrite !string_app_assoc.
Qed.

(** ** The loop as a function on the entries of the destination *)

Section Convert.

Import FS.

Variable now : stat_result.
Variable src : string -> outcome errno node.

Lemma convert_app l1 l2 D :
  convert now src (l1 ++ l2) D =
  match convert now src l1 D with
  | (D1, Ok _) => convert now src l2 D1
  | (D1, Raise e) => (D1, Raise e)
  end.
Proof.
  revert D. induction l1 as [|f l1 IH]; intros D; simpl; [reflexivity|].
  destruct (convert_file now src f D) as [D1 [[]|e]]; [apply IH|reflexivity].
Qed.

Lemma convert_file_ok f D data st :
  assoc (imageset_name f) D = None -> src f = Ok (File data st) ->
  convert_file now src f D =
    (D ++ [imageset_entry now (resolved src f)], Ok tt).
Proof.
  intros Hk Hs. unfold convert_file, imageset_entry, resolved.
  now rewrite Hk, Hs.
Qed.

(** Regular files with distinct image-set names, none of them taken: the
    loop returns and has added one full image set per file, in order. *)
Lemma convert_ok files D :
  (forall f, In f files -> exists data st, src f = Ok (File data st)) ->
  NoDup (map imageset_name files) ->
  (forall f, In f files -> assoc (imageset_name f) D = None) ->
  convert now src files D =
    (D ++ map (fun f => imageset_entry now (resolved src f)) files, Ok tt).
Proof.
  revert D. induction files as [|f files IH]; intros D Hreg Hnd Hfree; simpl.
  - now rewrite app_nil_r.
  - destruct (Hreg f (or_introl eq_refl)) as [data [st Hs]].
    rewrite (convert_file_ok f D data st (Hfree f (or_introl eq_refl)) Hs).
    inversion Hnd as [|? ? Hf Hnd']; subst.
    rewrite IH.
    + now rewrite <- app_assoc.
    + intros g Hg. apply Hreg. now right.
    + exact Hnd'.
    + intros g Hg. rewrite assoc_app, (Hfree g (or_intror Hg)).
      unfold imageset_entry, resolved. simpl.
      destruct (String.eqb_spec (imageset_name g) (imageset_name f)) as [E|E];
        [|reflexivity].
      exfalso. apply Hf. rewrite <- E. now apply in_map.
Qed.



End Convert.

(** ** What a run builds from a directory of images *)

Section Catalog.

Import FS.

Variable now : stat_result.

Lemma filter_all {A} (f : A -> bool) l :
  (forall x, In x l -> f x = true) -> filter f l = l.
Proof.
  induction l as [|x l IH]; intros H; simpl; [reflexivity|].
  rewrite (H x (or_introl eq_refl)), IH; [reflexivity|].
  intros y Hy. apply H. now right.
Qed.

Lemma NoDup_imageset_names l :
  NoDup (map name_without_ext l) -> NoDup (map imageset_name l).
Proof.
  induction l as [|f l IH]; simpl; intros H; [constructor|].
  inversion H as [|? ? Hf Hl]; subst. constructor; [|now apply IH].
  intros Hin. apply in_map_iff in Hin. destruct Hin as [g [Hg Hin]].
  apply Hf. apply imageset_name_inj in Hg. rewrite <- Hg. now apply in_map.
Qed.

Lemma root_entry_free f : assoc (imageset_name f) [root_entry now] = None.
Proof.
  unfold root_entry. apply assoc_single_other, imageset_name_not_contents.
Qed.

Lemma child_of_entry srcs name n :
  NoDup (map fst srcs) -> In (name, n) srcs -> child srcs name = Ok n.
Proof.
  intros Hnd Hin. unfold child. now rewrite (assoc_nodup name n srcs Hnd Hin).
Qed.

Lemma catalog_valid srcs :
  valid_images srcs ->
  catalog now (Ok (Dir srcs)) =
    (root_entry now :: map (imageset_entry now) srcs, Ok tt).
Proof.
  intros [Hall Hnd].
  assert (Hnames : NoDup (map fst srcs)) by now apply NoDup_map_inv in Hnd.
  assert (Hfiles : files_of srcs = map fst srcs).
  { apply filter_all. intros f Hf. apply in_map_iff in Hf.
    destruct Hf as [[name n] [<- Hin]]. now apply (Hall name n). }
  unfold catalog. rewrite Hfiles, convert_ok.
  - simpl. f_equal. f_equal. rewrite map_map. apply map_ext_in.
    intros [name n] Hin. unfold resolved. simpl.
    now rewrite (child_of_entry srcs name n Hnames Hin).
  - intros f Hf. apply in_map_iff in Hf. destruct Hf as [[name n] [<- Hin]].
    destruct (Hall name n Hin) as [_ [data [st ->]]]. exists data, st.
    now apply child_of_entry.
  - now apply NoDup_imageset_names.
  - intros f _. apply root_entry_free.
Qed.

(** With the source a directory, lines 8-10 raise only on a destination
    that is a regular file. *)
Lemma reset_with_source w srcs :
  lookup source_dir (fs w) = Ok (Dir srcs) ->
  (forall data st, lookup dest_dir (fs w) <> Ok (File data st)) ->
  exists w0, reset_destination w = (w0, Ok tt).
Proof.
  intros Hs Hd. destruct (lookup dest_dir (fs w)) as [[data st|D]|e] eqn:E.
  - now elim (Hd data st).
  - destruct (reset_dir w D E) as [w0 [E0 _]]. now exists w0.
  - unfold reset_destination, bind, query, exists_. rewrite E. unfold ret, update.
    rewrite source_dir_eq, lookup_app in Hs. rewrite dest_dir_eq in *.
    destruct (lookup project_dir (fs w)) as [[|P]|] eqn:EP; try discriminate.
    rewrite lookup_app, EP in E. simpl in E.
    destruct (assoc "Assets.xcassets" P) eqn:Ek; [discriminate|].
    destruct (makedirs_child project_dir (fs w) P _ EP Ek) as [n' [-> _]].
    eexists. reflexivity.
Qed.

End Catalog.

(* ================================================================== *)
(** * The statements of the specification *)

(** C1: when the source directory holds only regular files with image
    names and distinct names without extension, the run returns (unless
    the destination is a regular file) and the destination then lists
    exactly the root [Contents.json], holding the root descriptor printed
    with an indent of 2, followed by one image set per source file. *)
Theorem C1_destination_of_valid_images now w srcs :
  FS.lookup source_dir (fs w) = Ok (Dir srcs) ->
  valid_images srcs ->
  ((forall data st, FS.lookup dest_dir (fs w) <> Ok (File data st)) ->
   exists w', migrate_assets now w = (w', Ok tt)) /\
  (forall w', migrate_assets now w = (w', Ok tt) ->
     FS.lookup dest_dir (fs w') =
       Ok (Dir (("Contents.json", File root_descriptor_text now)
                  :: map (imageset_entry now) srcs))).
Proof.
  intros Hs Hv.
  pose proof (catalog_valid now srcs Hv) as Hc.
  destruct (migrate_assets_cases now w)
    as [[e [E0 E]]|[w0 [w1 [w2 [E0 [_ [_ [_ [_ [_ [E [L _]]]]]]]]]]]].
  - split.
    + intros Hd. destruct (reset_with_source w srcs Hs Hd) as [w0 E0'].
      rewrite E0 in E0'. discriminate.
    + intros w' H. rewrite E in H. discriminate.
  - rewrite Hs, Hc in E, L. simpl in E, L. split.
    + intros _. eexists. exact E.
    + intros w' H. rewrite E in H. injection H as <-. exact L.
Qed.

Lemma C1_witness :
  exists w',
    migrate_assets sample_now
      (sample_world [("icon.png", File "PNG" sample_stat);
                     ("Photo.PNG", File "JFIF" sample_stat)]) = (w', Ok tt) /\
    FS.lookup dest_dir (fs w') =
      Ok (Dir [("Contents.json", File root_descriptor_text sample_now);
               ("icon.imageset",
                Dir [("icon.png", File "PNG" sample_stat);
                     ("Contents.json",
                      File (image_descriptor_text "icon.png") sample_now)]);
               ("Photo.imageset",
                Dir [("Photo.PNG", File "JFIF" sample_stat);
                     ("Contents.json",
                      File (image_descriptor_text "Photo.PNG") sample_now)])]).
Proof.
  destruct (C1_destination_of_valid_images sample_now
              (sample_world [("icon.png", File "PNG" sample_stat);
                             ("Photo.PNG", File "JFIF" sample_stat)])
              [("icon.png", File "PNG" sample_stat);
               ("Photo.PNG", File "JFIF" sample_stat)]) as [Hret Hdest].
  - reflexivity.
  - split.
    + intros name n [[= <- <-]|[[= <- <-]|[]]];
        (split; [reflexivity|eexists; eexists; reflexivity]).
    + repeat constructor; simpl; intuition discriminate.
  - destruct Hret as [w' Hw'].
    + intros data st. vm_compute. discriminate.
    + exists w'. split; [exact Hw'|]. rewrite (Hdest w' Hw'). reflexivity.
Defined.

Lemma lookup_raises p n e :
  FS.lookup p n = Raise e -> e = ENOENT \/ e = ENOTDIR.
Proof.
  revert n. induction p as [|k p IH]; intros n; simpl; [discriminate|].
  destruct n as [|es]; [intros [= <-]; now right|].
  destruct (FS.assoc k es); [apply IH|intros [= <-]; now left].
Qed.

(** C2, as the code has it: when the source path does not resolve to a
    directory, the run raises. Either lines 8-10 raise and nothing has
    changed, or the listing raises [FileNotFoundError] or
    [NotADirectoryError] on the source path; at that moment the writes
    performed are the reset of the destination and the root descriptor, so
    the destination holds exactly the root [Contents.json] and no image set. *)
Theorem C2_source_missing now w :
  (forall srcs, FS.lookup source_dir (fs w) <> Ok (Dir srcs)) ->
  (exists e,
     reset_destination w = (w, Raise e) /\
     migrate_assets now w = (w, Raise e)) \/
  (exists w0 w1 e,
     reset_destination w = (w0, Ok tt) /\
     write_root_contents now w0 = (w1, Ok tt) /\
     migrate_assets now w = (w1, Raise (OSError e source_dir)) /\
     (e = ENOENT \/ e = ENOTDIR) /\
     FS.lookup dest_dir (fs w1) =
       Ok (Dir [("Contents.json", File root_descriptor_text now)])).
Proof.
  intros Hs.
  destruct (migrate_assets_cases now w)
    as [[e [E0 E]]|[w0 [w1 [w2 [E0 [E1 [L1 [F1 [O1 [E2 [E _]]]]]]]]]]].
  - left. now exists e.
  - right.
    assert (Hsrc : FS.lookup source_dir (fs w1) = FS.lookup source_dir (fs w))
      by (apply F1, (source_apart_dest [])).
    assert (Hw : exists e, (e = ENOENT \/ e = ENOTDIR) /\
                 migrate_files now w1 = (w1, Raise (OSError e source_dir)) /\
                 snd (catalog now (FS.lookup source_dir (fs w))) =
                   Raise (OSError e source_dir)).
    { unfold migrate_files, bind, attempt, FS.listdir. rewrite Hsrc.
      destruct (FS.lookup source_dir (fs w)) as [[data st|srcs]|e] eqn:El.
      - exists ENOTDIR. auto.
      - now elim (Hs srcs).
      - exists e. split; [now apply lookup_raises in El|]. auto. }
    destruct Hw as [e [He [Hm Hc]]].
    exists w0, w1, e. split; [exact E0|]. split; [exact E1|].
    rewrite Hm in E2. injection E2 as <- E2.
    split; [|split; [exact He|exact L1]].
    rewrite E, Hc. simpl. rewrite app_nil_r, <- O1. now destruct w1.
Qed.

Lemma C2_witness :
  exists w1 e,
    migrate_assets sample_now empty_world =
      (w1, Raise (OSError e source_dir)) /\
    FS.lookup dest_dir (fs w1) =
      Ok (Dir [("Contents.json", File root_descriptor_text sample_now)]).
Proof.
  destruct (C2_source_missing sample_now empty_world)
    as [[e [E _]]|[w0 [w1 [e [_ [_ [E [_ L]]]]]]]].
  - intros srcs. vm_compute. discriminate.
  - vm_compute in E. discriminate.
  - now exists w1, e.
Defined.

(** C2 as stated fails: with no source directory, the run raises when
    the root descriptor is already written, which lines 8-10 alone do not
    write. *)
Lemma C2_counterexample :
  FS.lookup source_dir (fs empty_world) = Raise ENOENT /\
  snd (migrate_assets sample_now empty_world) =
    Raise (FileNotFoundError source_dir) /\
  FS.lookup (dest_dir ++ ["Contents.json"])
    (fs (fst (migrate_assets sample_now empty_world))) =
    Ok (File root_descriptor_text sample_now) /\
  FS.lookup (dest_dir ++ ["Contents.json"])
    (fs (fst (reset_destination empty_world))) = Raise ENOENT.
Proof. repeat split; reflexivity. Qed.

(** C3, as the code has it: when the destination exists as a directory,
    lines 8-10 return and leave it an empty directory, whatever it held,
    and leave everything apart from the destination as it was. *)
Theorem C3_reset_directory w D :
  FS.lookup dest_dir (fs w) = Ok (Dir D) ->
  exists w0,
    reset_destination w = (w0, Ok tt) /\
    FS.lookup dest_dir (fs w0) = Ok (Dir []) /\
    same_outside_dest (fs w) (fs w0).
Proof.
  intros H. destruct (reset_dir w D H) as [w0 [E [L [F _]]]].
  now exists w0.
Qed.

Lemma C3_witness :
  exists w0,
    reset_destination
      (sample_world_with [] (Dir [("old.imageset", Dir [("old.png",
                                     File "PNG" sample_stat)])])) =
      (w0, Ok tt) /\
    FS.lookup dest_dir (fs w0) = Ok (Dir []).
Proof.
  destruct (C3_reset_directory
              (sample_world_with [] (Dir [("old.imageset", Dir [("old.png",
                                             File "PNG" sample_stat)])]))
              [("old.imageset", Dir [("old.png", File "PNG" sample_stat)])])
    as [w0 [E [L _]]].
  - reflexivity.
  - now exists w0.
Defined.

(** C3 as stated fails: a destination that is a regular file exists, yet
    [shutil.rmtree] raises [NotADirectoryError] on it and the run stops
    there with the file in place. *)
Lemma C3_counterexample :
  FS.exists_ dest_dir (fs (sample_world_with [] (File "x" sample_stat)))
    = true /\
  migrate_assets sample_now (sample_world_with [] (File "x" sample_stat)) =
    (sample_world_with [] (File "x" sample_stat),
     Raise (NotADirectoryError dest_dir)).
Proof. split; reflexivity. Qed.

(** ** Repeated names and the loop *)

Section Repeats.

Import FS.

(** A list with a repeated key splits at the first element whose key was
    met before. *)
Lemma first_repeat {A} (g : A -> string) l :
  ~ NoDup (map g l) ->
  exists l1 x l2,
    l = l1 ++ x :: l2 /\ NoDup (map g l1) /\ In (g x) (map g l1).
Proof.
  induction l as [|x l IH] using rev_ind; intros H.
  - elim H. constructor.
  - destruct (NoDup_dec string_dec (map g l)) as [Hnd|Hnd].
    + exists l, x, []. split; [reflexivity|]. split; [exact Hnd|].
      destruct (in_dec string_dec (g x) (map g l)) as [Hin|Hin];
        [exact Hin|].
      elim H. rewrite map_app. apply NoDup_app; [exact Hnd| |].
      * simpl. repeat constructor. intros [].
      * intros a Ha [<-|[]]. now apply Hin.
    + destruct (IH Hnd) as [l1 [y [l2 [-> [H1 H2]]]]].
      exists l1, y, (l2 ++ [x]). now rewrite <- app_assoc.
Qed.

Variable now : stat_result.
Variable src : string -> outcome errno node.

Lemma keys_of_imagesets l :
  map fst (map (fun f => imageset_entry now (resolved src f)) l) =
  map imageset_name l.
Proof. rewrite map_map. now apply map_ext. Qed.

(** Regular files throughout: the loop stops at the first file whose image
    set is already there, having converted the files before it. *)
Lemma convert_collision l1 x l2 D :
  (forall f, In f l1 -> exists data st, src f = Ok (File data st)) ->
  NoDup (map imageset_name l1) ->
  (forall f, In f l1 -> assoc (imageset_name f) D = None) ->
  In (imageset_name x) (map imageset_name l1) ->
  convert now src (l1 ++ x :: l2) D =
    (D ++ map (fun f => imageset_entry now (resolved src f)) l1,
     Raise (FileExistsError (imageset_dir x))).
Proof.
  intros Hreg Hnd Hfree Hin. rewrite convert_app, convert_ok; auto.
  simpl. unfold convert_file.
  destruct (assoc (imageset_name x)
              (D ++ map (fun f => imageset_entry now (resolved src f)) l1))
    eqn:E; [reflexivity|].
  exfalso. apply assoc_none_not_in in E. apply E.
  rewrite map_app, keys_of_imagesets. apply in_or_app. now right.
Qed.

End Repeats.

(** ** What a run leaves does not depend on when it ran *)

Section Content.

Import FS.

Lemma assoc_content k es :
  assoc k (content_entries es) = option_map content (assoc k es).
Proof.
  induction es as [|[j v] es IH]; simpl; [reflexivity|].
  now destruct (String.eqb k j).
Qed.

Lemma assoc_content_none k D1 D2 :
  content_entries D1 = content_entries D2 ->
  assoc k D1 = None -> assoc k D2 = None.
Proof.
  intros H H1. pose proof (assoc_content k D2) as E.
  rewrite <- H, assoc_content, H1 in E. simpl in E.
  now destruct (assoc k D2).
Qed.

Lemma content_entries_app a b :
  content_entries (a ++ b) = content_entries a ++ content_entries b.
Proof. apply map_app. Qed.

Variables now1 now2 : stat_result.
Variable src : string -> outcome errno node.

Lemma convert_file_content f D1 D2 :
  content_entries D1 = content_entries D2 ->
  snd (convert_file now1 src f D1) = snd (convert_file now2 src f D2) /\
  content_entries (fst (convert_file now1 src f D1)) =
  content_entries (fst (convert_file now2 src f D2)).
Proof.
  intros H. unfold convert_file.
  destruct (assoc (imageset_name f) D1) eqn:E1;
    destruct (assoc (imageset_name f) D2) eqn:E2.
  - now split.
  - apply (assoc_content_none _ _ _ (eq_sym H)) in E2. congruence.
  - apply (assoc_content_none _ _ _ H) in E1. congruence.
  - destruct (src f) as [[data st|sub]|e]; simpl; split; try reflexivity;
      rewrite !content_entries_app, H; reflexivity.
Qed.

Lemma convert_content files D1 D2 :
  content_entries D1 = content_entries D2 ->
  snd (convert now1 src files D1) = snd (convert now2 src files D2) /\
  content_entries (fst (convert now1 src files D1)) =
  content_entries (fst (convert now2 src files D2)).
Proof.
  revert D1 D2. induction files as [|f files IH]; intros D1 D2 H; simpl.
  - now split.
  - destruct (convert_file_content f D1 D2 H) as [Hr Hd].
    destruct (convert_file now1 src f D1) as [D1' [[]|e1]];
      destruct (convert_file now2 src f D2) as [D2' [[]|e2]];
      simpl in *; try discriminate.
    + now apply IH.
    + now split.
Qed.

End Content.

Lemma catalog_content now1 now2 s :
  snd (catalog now1 s) = snd (catalog now2 s) /\
  content (Dir (fst (catalog now1 s))) = content (Dir (fst (catalog now2 s))).
Proof.
  assert (H : snd (catalog now1 s) = snd (catalog now2 s) /\
              content_entries (fst (catalog now1 s)) =
              content_entries (fst (catalog now2 s))).
  { unfold catalog. destruct s as [[data st|srcs]|e]; try (now split).
    now apply convert_content. }
  destruct H as [H1 H2]. split; [exact H1|]. simpl.
  unfold content_entries in H2. now rewrite H2.
Qed.

(** ** One turn of the loop on a regular file *)

Lemma migrate_file_regular now f w D data st :
  is_image f = true ->
  FS.lookup dest_dir (fs w) = Ok (Dir D) ->
  FS.assoc (imageset_name f) D = None ->
  FS.lookup (source_dir ++ [f]) (fs w) = Ok (File data st) ->
  exists w',
    migrate_file now f w = (w', Ok tt) /\
    FS.lookup (imageset_dir f) (fs w') = Ok (imageset_of now f data st) /\
    same_outside_dest (fs w) (fs w').
Proof.
  intros Himg Hd Hk Hs.
  destruct (migrate_file_convert now f w D Hd Himg) as [w' [E [L [F _]]]].
  unfold convert_file, source_file in E, L. rewrite Hk, Hs in E, L.
  simpl in E, L. exists w'. split; [exact E|]. split; [|exact F].
  rewrite imageset_dir_eq. now apply lookup_child with (D := D).
Qed.

(** C5: a turn of the loop on a selected regular file returns and leaves
    in the image set a [Contents.json] holding, printed with an indent of
    2, an object with three variant entries - the first with the file
    name, the idiom and the scale 1x, the other two with idiom and scale
    only - and the info record. *)
Theorem C5_image_descriptor now f w D data st :
  is_image f = true ->
  FS.lookup dest_dir (fs w) = Ok (Dir D) ->
  FS.assoc (imageset_name f) D = None ->
  FS.lookup (source_dir ++ [f]) (fs w) = Ok (File data st) ->
  exists w',
    migrate_file now f w = (w', Ok tt) /\
    FS.lookup (imageset_dir f ++ ["Contents.json"]) (fs w') =
      Ok (File
            (Json.dumps
               (Json.Obj
                  [("images",
                    Json.Arr
                      [Json.Obj [("filename", Json.Str f);
                                 ("idiom", Json.Str "universal");
                                 ("scale", Json.Str "1x")];
                       Json.Obj [("idiom", Json.Str "universal");
                                 ("scale", Json.Str "2x")];
                       Json.Obj [("idiom", Json.Str "universal");
                                 ("scale", Json.Str "3x")]]);
                   ("info",
                    Json.Obj [("author", Json.Str "xcode");
                              ("version", Json.Int 1)])]) 2) now) /\
    FS.lookup (imageset_dir f ++ ["Contents.json"]) (fs w') =
      Ok (File (image_descriptor_text f) now).
Proof.
  intros Himg Hd Hk Hs.
  destruct (migrate_file_regular now f w D data st Himg Hd Hk Hs)
    as [w' [E [L _]]].
  exists w'. split; [exact E|].
  assert (H : FS.lookup (imageset_dir f ++ ["Contents.json"]) (fs w') =
              Ok (File (Json.dumps (imageset_contents f) 2) now)).
  { rewrite lookup_app, L. unfold imageset_of. cbn [FS.lookup FS.assoc].
    apply is_image_not_contents in Himg. apply String.eqb_neq in Himg.
    now rewrite Himg, String.eqb_refl. }
  split; [exact H|]. now rewrite <- imageset_contents_text.
Qed.

Lemma C5_witness :
  exists w',
    migrate_file sample_now "icon.png"
      (sample_world_with [("icon.png", File "PNG" sample_stat)] (Dir [])) =
      (w', Ok tt) /\
    FS.lookup (imageset_dir "icon.png" ++ ["Contents.json"]) (fs w') =
      Ok (File
            (Json.lines
               ["{";
                "  " ++ Json.quoted "images" ++ ": [";
                "    {";
                "      " ++ Json.quoted "filename" ++ ": "
                  ++ Json.quoted "icon.png" ++ ",";
                "      " ++ Json.quoted "idiom" ++ ": "
                  ++ Json.quoted "universal" ++ ",";
                "      " ++ Json.quoted "scale" ++ ": " ++ Json.quoted "1x";
                "    },";
                "    {";
                "      " ++ Json.quoted "idiom" ++ ": "
                  ++ Json.quoted "universal" ++ ",";
                "      " ++ Json.quoted "scale" ++ ": " ++ Json.quoted "2x";
                "    },";
                "    {";
                "      " ++ Json.quoted "idiom" ++ ": "
                  ++ Json.quoted "universal" ++ ",";
                "      " ++ Json.quoted "scale" ++ ": " ++ Json.quoted "3x";
                "    }";
                "  ],";
                "  " ++ Json.quoted "info" ++ ": {";
                "    " ++ Json.quoted "author" ++ ": "
                  ++ Json.quoted "xcode" ++ ",";
                "    " ++ Json.quoted "version" ++ ": 1";
                "  }";
                "}"]%string) sample_now).
Proof.
  destruct (C5_image_descriptor sample_now "icon.png"
              (sample_world_with [("icon.png", File "PNG" sample_stat)]
                 (Dir []))
              [] "PNG" sample_stat) as [w' [E [_ L]]];
    try reflexivity.
  exists w'. split; [exact E|]. rewrite L. reflexivity.
Defined.



(** ** Where the entries of the destination come from *)

Lemma files_of_spec srcs f :
  In f (files_of srcs) <-> In f (map fst srcs) /\ is_image f = true.
Proof. unfold files_of. apply filter_In. Qed.







(** ** Two files with one name without extension *)

Lemma NoDup_map_inj_in {A B} (g : A -> B) l a b :
  NoDup (map g l) -> In a l -> In b l -> g a = g b -> a = b.
Proof.
  induction l as [|x l IH]; simpl; intros Hnd Ha Hb Hg; [contradiction|].
  inversion Hnd as [|? ? Hx Hl]; subst.
  destruct Ha as [->|Ha]; destruct Hb as [->|Hb]; auto.
  - elim Hx. rewrite Hg. now apply in_map.
  - elim Hx. rewrite <- Hg. now apply in_map.
Qed.

Lemma child_regular srcs f :
  (forall name n, In (name, n) srcs -> is_image name = true ->
                  exists data st, n = File data st) ->
  In f (files_of srcs) ->
  exists data st, child srcs f = Ok (File data st).
Proof.
  intros Hreg Hf. apply files_of_spec in Hf. destruct Hf as [Hin Himg].
  unfold child. destruct (FS.assoc f srcs) as [c|] eqn:E.
  - apply assoc_in in E. destruct (Hreg f c E Himg) as [data [st ->]].
    now exists data, st.
  - apply assoc_none_not_in in E. contradiction.
Qed.

(** C6: with two selected files of different names and the same name
    without extension (and the selected entries regular files, the
    destination not a regular file), the run converts the files listed
    before the first one whose name without extension was met already,
    and raises [FileExistsError] on the image set directory of that one. *)
Theorem C6_duplicate_basename now w srcs f1 f2 :
  FS.lookup source_dir (fs w) = Ok (Dir srcs) ->
  (forall data st, FS.lookup dest_dir (fs w) <> Ok (File data st)) ->
  (forall name n, In (name, n) srcs -> is_image name = true ->
                  exists data st, n = File data st) ->
  In f1 (files_of srcs) -> In f2 (files_of srcs) -> f1 <> f2 ->
  name_without_ext f1 = name_without_ext f2 ->
  exists w' done f0 f rest,
    files_of srcs = done ++ f :: rest /\
    In f0 done /\ name_without_ext f0 = name_without_ext f /\
    migrate_assets now w = (w', Raise (FileExistsError (imageset_dir f))) /\
    FS.lookup dest_dir (fs w') =
      Ok (Dir (("Contents.json", File root_descriptor_text now)
                 :: map (fun g => imageset_entry now (resolved (child srcs) g))
                        done)).
Proof.
  intros Hs Hd Hreg H1 H2 Hne Heq.
  assert (Hdup : ~ NoDup (map imageset_name (files_of srcs))).
  { intros Hnd. apply Hne.
    apply (NoDup_map_inj_in imageset_name (files_of srcs)); auto.
    unfold imageset_name. now rewrite Heq. }
  destruct (first_repeat imageset_name _ Hdup)
    as [done [f [rest [Hfiles [Hnd Hin]]]]].
  assert (Hc : catalog now (Ok (Dir srcs)) =
               ([root_entry now] ++
                map (fun g => imageset_entry now (resolved (child srcs) g))
                    done,
                Raise (FileExistsError (imageset_dir f)))).
  { unfold catalog. rewrite Hfiles. apply convert_collision; auto.
    - intros g Hg. apply child_regular; [exact Hreg|].
      rewrite Hfiles. apply in_or_app. now left.
    - intros g _. apply root_entry_free. }
  apply in_map_iff in Hin. destruct Hin as [f0 [H0 Hin0]].
  destruct (reset_with_source w srcs Hs Hd) as [w0 E0].
  destruct (migrate_assets_cases now w)
    as [[e [E0' _]]|[w0' [w1 [w2 [_ [_ [_ [_ [_ [_ [E [L _]]]]]]]]]]]].
  - congruence.
  - rewrite Hs, Hc in E, L. simpl in E, L.
    eexists. exists done, f0, f, rest. split; [exact Hfiles|].
    split; [exact Hin0|]. split; [now apply imageset_name_inj|].
    split; [exact E|exact L].
Qed.

Lemma C6_witness :
  exists w' f,
    migrate_assets sample_now
      (sample_world [("logo.png", File "PNG" sample_stat);
                     ("logo.jpg", File "JFIF" sample_stat)]) =
      (w', Raise (FileExistsError (imageset_dir f))).
Proof.
  destruct (C6_duplicate_basename sample_now
              (sample_world [("logo.png", File "PNG" sample_stat);
                             ("logo.jpg", File "JFIF" sample_stat)])
              [("logo.png", File "PNG" sample_stat);
               ("logo.jpg", File "JFIF" sample_stat)]
              "logo.png" "logo.jpg")
    as [w' [done [f0 [f [rest [_ [_ [_ [E _]]]]]]]]].
  - reflexivity.
  - intros data st. vm_compute. discriminate.
  - intros name n [[= <- <-]|[[= <- <-]|[]]] _; eexists; eexists; reflexivity.
  - simpl. auto.
  - simpl. auto.
  - discriminate.
  - reflexivity.
  - now exists w', f.
Defined.

(** C9: running twice is running once as far as the destination goes. The
    second run returns or raises what the first did and leaves at the
    destination a tree with the content the first left; and a run on a
    destination that is a directory keeps nothing of it: the destination
    ends with the entries computed from the source alone. *)
Theorem C9_rerun now1 now2 w :
  snd (migrate_assets now2 (fst (migrate_assets now1 w))) =
    snd (migrate_assets now1 w) /\
  content_at dest_dir
    (fs (fst (migrate_assets now2 (fst (migrate_assets now1 w))))) =
    content_at dest_dir (fs (fst (migrate_assets now1 w))) /\
  (forall D,
     FS.lookup dest_dir (fs w) = Ok (Dir D) ->
     FS.lookup dest_dir (fs (fst (migrate_assets now1 w))) =
       Ok (Dir (fst (catalog now1 (FS.lookup source_dir (fs w)))))).
Proof.
  destruct (migrate_assets_cases now1 w)
    as [[e [E0 E]]|[w0 [w1 [w2 [E0 [_ [_ [_ [_ [_ [E [L F]]]]]]]]]]]].
  - rewrite E. simpl.
    destruct (migrate_assets_cases now2 w)
      as [[e' [E0' E']]|[w0' [w1' [w2' [E0' _]]]]]; [|congruence].
    rewrite E'. simpl. split; [congruence|]. split; [reflexivity|].
    intros D HD. destruct (reset_dir w D HD) as [w0 [E0'' _]]. congruence.
  - rewrite E. cbn [fst snd].
    set (W := {| fs := fs w2;
                 stdout := stdout w ++
                   completion
                     (snd (catalog now1 (FS.lookup source_dir (fs w)))) |}).
    assert (Hsrc : FS.lookup source_dir (fs W) = FS.lookup source_dir (fs w))
      by (apply F, (source_apart_dest [])).
    destruct (migrate_assets_cases now2 W)
      as [[e' [E0' _]]|[w0' [w1' [w2' [_ [_ [_ [_ [_ [_ [E' [L' _]]]]]]]]]]]].
    + destruct (reset_dir W _ L) as [w0' [E0'' _]]. congruence.
    + rewrite E'. cbn [fst snd fs]. rewrite Hsrc in *.
      destruct (catalog_content now2 now1 (FS.lookup source_dir (fs w)))
        as [Hr Hc].
      split; [exact Hr|]. split; [|intros D _; exact L].
      unfold content_at. simpl fs. now rewrite L', L, Hc.
Qed.

(** C10: the name [.png] is selected, [os.path.splitext] takes nothing off
    it, and a run over valid images that include a regular file [.png]
    returns with an image set [.png.imageset] holding the copy [.png] and
    a descriptor whose 1x entry names [.png]. *)
Theorem C10_dot_png now w srcs data st :
  FS.lookup source_dir (fs w) = Ok (Dir srcs) ->
  valid_images srcs ->
  In (".png", File data st) srcs ->
  (forall d s, FS.lookup dest_dir (fs w) <> Ok (File d s)) ->
  is_image ".png" = true /\
  Py.splitext ".png" = (".png", EmptyString) /\
  imageset_dir ".png" = dest_dir ++ [".png.imageset"] /\
  Json.encode_basestring_ascii ".png" = Json.quoted ".png" /\
  exists w' D',
    migrate_assets now w = (w', Ok tt) /\
    FS.lookup dest_dir (fs w') = Ok (Dir D') /\
    In (".png.imageset",
        Dir [(".png", File data st);
             ("Contents.json", File (image_descriptor_text ".png") now)]) D'.
Proof.
  intros Hs Hv Hin Hd.
  repeat (split; [reflexivity|]).
  pose proof (catalog_valid now srcs Hv) as Hc.
  destruct (reset_with_source w srcs Hs Hd) as [w0 E0].
  destruct (migrate_assets_cases now w)
    as [[e [E0' _]]|[w0' [w1 [w2 [_ [_ [_ [_ [_ [_ [E [L _]]]]]]]]]]]].
  - congruence.
  - rewrite Hs, Hc in E, L. simpl in E, L.
    eexists. eexists. split; [exact E|]. split; [exact L|].
    right. apply in_map_iff. exists (".png", File data st).
    split; [|exact Hin].
    unfold imageset_entry, imageset_of. simpl fst. simpl snd.
    now rewrite imageset_contents_text.
Qed.

Lemma C10_witness :
  exists w' D',
    migrate_assets sample_now
      (sample_world [(".png", File "PNG" sample_stat)]) = (w', Ok tt) /\
    FS.lookup dest_dir (fs w') = Ok (Dir D') /\
    In (".png.imageset",
        Dir [(".png", File "PNG" sample_stat);
             ("Contents.json",
              File (image_descriptor_text ".png") sample_now)]) D'.
Proof.
  destruct (C10_dot_png sample_now
              (sample_world [(".png", File "PNG" sample_stat)])
              [(".png", File "PNG" sample_stat)] "PNG" sample_stat)
    as [_ [_ [_ [_ H]]]].
  - reflexivity.
  - split.
    + intros name n [[= <- <-]|[]].
      split; [reflexivity|eexists; eexists; reflexivity].
    + repeat constructor. intros [].
  - simpl. auto.
  - intros d s. vm_compute. discriminate.
  - exact H.
Defined.

(* ================================================================== *)
(** * Further properties of the script *)

(** ** When lines 8-10 raise *)

Section Reset.

Import FS.






End Reset.

(** ** More on the loop as a function *)

Section ConvertMore.

Import FS.

Variable now : stat_result.
Variable src : string -> outcome errno node.




End ConvertMore.




(** ** The outcome of a run *)


(** X2: a run prints [Migration complete] once, last, when it returns,
    and prints nothing when it raises. *)
Theorem X2_completion_line now w :
  stdout (fst (migrate_assets now w)) =
    stdout w ++ completion (snd (migrate_assets now w)).
Proof.
  destruct (migrate_assets_cases now w)
    as [[e [_ E]]|[w0 [w1 [w2 [_ [_ [_ [_ [_ [_ [E _]]]]]]]]]]];
    rewrite E; simpl; [now rewrite app_nil_r|reflexivity].
Qed.












(** ** The name of an image set *)

Section Splitext.

Open Scope string_scope.

Lemma eqb_dot_lower c :
  Ascii.eqb (Py.lower_char c) "."%char = Ascii.eqb c "."%char.
Proof. destruct c as [[] [] [] [] [] [] [] []]; reflexivity. Qed.

Lemma rfind_dot_lower s :
  Py.rfind (Py.lower s) "."%char = Py.rfind s "."%char.
Proof.
  induction s as [|c s IH]; cbn [Py.lower Py.rfind]; [reflexivity|].
  now rewrite IH, eqb_dot_lower.
Qed.

Lemma rfind_lower_bound s c : (-1 <= Py.rfind s c)%Z.
Proof.
  induction s as [|a s IH]; cbn [Py.rfind]; [lia|].
  destruct (0 <=? Py.rfind s c)%Z eqn:E.
  - apply Z.leb_le in E. lia.
  - destruct (Ascii.eqb a c); lia.
Qed.

Lemma rfind_app_at a b c :
  Py.rfind b c = 0%Z ->
  Py.rfind (a ++ b) c = Z.of_nat (String.length a).
Proof.
  intros Hb. induction a as [|x a IH]; cbn [append Py.rfind String.length].
  - exact Hb.
  - rewrite IH. destruct (0 <=? Z.of_nat (String.length a))%Z eqn:E.
    + lia.
    + apply Z.leb_gt in E. lia.
Qed.

Lemma substring_prefix a b : substring 0 (String.length a) (a ++ b) = a.
Proof. induction a as [|x a IH]; simpl; [now destruct b|now rewrite IH]. Qed.

Lemma substring_all b : substring 0 (String.length b) b = b.
Proof. induction b as [|x b IH]; simpl; [reflexivity|now rewrite IH]. Qed.

Lemma substring_skip a b n :
  substring (String.length a) n (a ++ b) = substring 0 n b.
Proof. induction a as [|x a IH]; simpl; [reflexivity|exact IH]. Qed.

Lemma slices_at a b :
  Py.slice_to (a ++ b) (Z.of_nat (String.length a)) = a /\
  Py.slice_from (a ++ b) (Z.of_nat (String.length a)) = b.
Proof.
  unfold Py.slice_to, Py.slice_from. rewrite Nat2Z.id. split.
  - apply substring_prefix.
  - rewrite substring_skip, string_length_app.
    replace (String.length a + String.length b - String.length a)
      with (String.length b) by lia.
    apply substring_all.
Qed.

(** [os.path.splitext] on a name that ends with an extension holding one
    dot, its first character. *)
Lemma splitext_at_suffix pre ext :
  Py.rfind ext "."%char = 0%Z ->
  Py.splitext (pre ++ ext) =
    if (Py.rfind (pre ++ ext) "/"%char <? Z.of_nat (String.length pre))%Z
       && Py.skip_leading_dots (String.length (pre ++ ext)) (pre ++ ext)
            "."%char (Py.rfind (pre ++ ext) "/"%char + 1)
            (Z.of_nat (String.length pre))
    then (pre, ext) else (pre ++ ext, "").
Proof.
  intros H. unfold Py.splitext, Py.splitext_generic.
  rewrite (rfind_app_at pre ext _ H).
  destruct (slices_at pre ext) as [-> ->]. reflexivity.
Qed.

Lemma image_suffix_shape ext suffix :
  In suffix [".png"; ".jpg"; ".jpeg"] ->
  equal_ignoring_case ext suffix = true ->
  Py.rfind ext "."%char = 0%Z /\ exists rest, ext = String "."%char rest.
Proof.
  intros Hin Heq.
  assert (Hl : Py.lower suffix = suffix)
    by (simpl in Hin; destruct Hin as [<-|[<-|[<-|[]]]]; reflexivity).
  pose proof (equal_ignoring_case_lowered ext suffix Heq Hl) as Hlow.
  split.
  - rewrite <- rfind_dot_lower, Hlow.
    simpl in Hin. destruct Hin as [<-|[<-|[<-|[]]]]; reflexivity.
  - destruct ext as [|c rest].
    + simpl in Hin. destruct Hin as [<-|[<-|[<-|[]]]]; discriminate.
    + exists rest. f_equal.
      assert (Hc : Py.lower_char c = "."%char)
        by (simpl in Hin; destruct Hin as [<-|[<-|[<-|[]]]];
            simpl in Hlow; now injection Hlow).
      apply Ascii.eqb_eq. rewrite <- eqb_dot_lower, Hc. reflexivity.
Qed.

End Splitext.

(** X9: for a selected name, line 24 takes off nothing, or exactly the
    image extension that made the filter select it (with the case it has
    in the name); and it takes the extension off whenever the name holds
    no [/] and does not start with a dot, as directory entries other than
    hidden files do. *)
Theorem X9_name_without_ext f :
  is_image f = true ->
  exists stem ext suffix,
    f = (stem ++ ext)%string /\
    In suffix [".png"; ".jpg"; ".jpeg"] /\
    equal_ignoring_case ext suffix = true /\
    (name_without_ext f = stem \/ name_without_ext f = f) /\
    (Py.rfind f "/"%char = (-1)%Z ->
     (exists c rest, f = String c rest /\ c <> "."%char) ->
     name_without_ext f = stem /\
     imageset_name f = (stem ++ ".imageset")%string).
Proof.
  intros Himg. apply is_image_spec in Himg.
  destruct Himg as [suffix [Hin [stem [ext [-> Heq]]]]].
  exists stem, ext, suffix. split; [reflexivity|]. split; [exact Hin|].
  split; [exact Heq|].
  destruct (image_suffix_shape ext suffix Hin Heq) as [Hdot [rest ->]].
  unfold imageset_name, name_without_ext.
  rewrite (splitext_at_suffix stem _ Hdot). split.
  - match goal with |- context [if ?b then _ else _] => destruct b end;
      simpl; auto.
  - intros Hsep [c [tl [Hf Hc]]]. rewrite Hsep.
    destruct stem as [|s0 stem].
    + simpl in Hf. injection Hf as <- _. now elim Hc.
    + simpl in Hf. injection Hf as <- _.
      cbn [append String.length Py.skip_leading_dots].
      change (-1 + 1)%Z with 0%Z. cbn [Z.to_nat String.get].
      apply Ascii.eqb_neq in Hc. rewrite Hc.
      replace (-1 <? Z.of_nat (S (String.length stem)))%Z with true
        by (symmetry; apply Z.ltb_lt; lia).
      replace (0 <? Z.of_nat (S (String.length stem)))%Z with true
        by (symmetry; apply Z.ltb_lt; lia).
      simpl. auto.
Qed.

Lemma X9_witness :
  exists stem ext suffix,
    "Holiday.Photo.JPEG" = (stem ++ ext)%string /\
    In suffix [".png"; ".jpg"; ".jpeg"] /\
    equal_ignoring_case ext suffix = true /\
    name_without_ext "Holiday.Photo.JPEG" = stem.
Proof.
  destruct (X9_name_without_ext "Holiday.Photo.JPEG" eq_refl)
    as [stem [ext [suffix [Hf [Hin [Heq [_ H]]]]]]].
  destruct H as [Hstem _].
  - reflexivity.
  - eexists. eexists. split; [reflexivity|discriminate].
  - now exists stem, ext, suffix.
Defined.

(** ** The descriptors are plain ASCII *)

Section PlainText.

Open Scope string_scope.

Lemma string_forall_app p a b :
  string_forall p (a ++ b) = string_forall p a && string_forall p b.
Proof.
  induction a as [|c a IH]; simpl; [reflexivity|].
  now rewrite IH, andb_assoc.
Qed.

Lemma escape_char_printable c :
  string_forall printable (Json.escape_char c) = true.
Proof. destruct c as [[] [] [] [] [] [] [] []]; reflexivity. Qed.

Lemma escape_printable s : string_forall printable (Json.escape s) = true.
Proof.
  induction s as [|c s IH]; cbn [Json.escape]; [reflexivity|].
  now rewrite string_forall_app, escape_char_printable, IH.
Qed.

Lemma string_forall_weaken (p q : ascii -> bool) s :
  (forall c, p c = true -> q c = true) ->
  string_forall p s = true -> string_forall q s = true.
Proof.
  intros Hpq. induction s as [|c s IH]; simpl; [reflexivity|].
  intros H. apply andb_true_iff in H. destruct H as [Hc Hs].
  now rewrite (Hpq c Hc), IH.
Qed.

Lemma encode_ascii s : ascii_text (Json.encode_basestring_ascii s) = true.
Proof.
  unfold ascii_text, Json.encode_basestring_ascii.
  cbn [string_forall]. rewrite string_forall_app.
  rewrite (string_forall_weaken printable _ (Json.escape s)).
  - reflexivity.
  - intros c Hc. now rewrite Hc.
  - apply escape_printable.
Qed.

Lemma lines_ascii ls :
  Forall (fun l => ascii_text l = true) ls ->
  ascii_text (Json.lines ls) = true.
Proof.
  unfold Json.lines. induction 1 as [|l ls Hl Hls IH]; [reflexivity|].
  cbn [Json.join]. destruct ls as [|l' ls]; [exact Hl|].
  unfold ascii_text in *. rewrite !string_forall_app, Hl, IH. reflexivity.
Qed.

End PlainText.

(** X10: whatever the file name, the descriptor of its image set is plain
    ASCII - printable characters and line feeds; [json.dump] escapes the
    quotes, backslashes, control and non-ASCII characters of the name. *)
Theorem X10_descriptor_is_ascii f :
  ascii_text (Json.dumps (imageset_contents f) 2) = true.
Proof.
  rewrite imageset_contents_text. unfold image_descriptor_text.
  apply lines_ascii.
  repeat (apply Forall_cons; [first [reflexivity | idtac] | ]);
    [|apply Forall_nil].
  unfold ascii_text. rewrite !string_forall_app.
  fold (ascii_text (Json.encode_basestring_ascii f)).
  now rewrite encode_ascii.
Qed.


